(** * edgarl: the EDGAR bulk-data index build, embedded in Rocq

    A shallow embedding of [src/edgarl/__init__.py]: the worker
    [gather_index], the chunking and merge of [EDGAR.build], the
    fetch/extract helper [process_zip], the summary rotation and the
    accessor [CompanyFacts.get].

    Python objects that come out of [json.load] are values of [json];
    a [dict] used as an index is a [gmap]; exceptions are an explicit
    result type; the disk is a record with one field per location the
    build touches. A [str] is a [string], one [ascii] per character.
    What lies outside the program is an input of the model: the parse of
    a file ([Doc] or [Junk]), the HTTP responses, the clock, the order in
    which futures complete, and the file system with POSIX [rename]. *)

From Stdlib Require Import ZArith String Ascii List Lia.
From stdpp Require Import base option list gmap strings sorting.

Set Warnings "-register-all".
Local Open Scope string_scope.
Local Open Scope Z_scope.

(** ** Python values *)

(** What [json.load] returns. An integer literal becomes [JInt]; literals
    with a fraction or an exponent (Python [float]) are not represented.
    A [JObj] lists the items of the [dict] in insertion order; [json.load]
    never produces a repeated key. *)
Inductive json :=
| JNull
| JBool (b : bool)
| JInt (z : Z)
| JStr (s : string)
| JArr (items : list json)
| JObj (members : list (string * json)).

(** The exceptions the modelled code can raise. *)
Inductive exn :=
| KeyError
| TypeError
| AttributeError
| ValueError
| ZeroDivisionError
| JSONDecodeError
| OSError
| HTTPError
| ConnectionError
| BadZipFile.

Inductive result (A : Type) :=
| Return (a : A)
| Raise (e : exn).
Arguments Return {A} a.
Arguments Raise {A} e.

Global Instance exn_eq_dec : EqDecision exn.
Proof. solve_decision. Defined.

Global Instance result_eq_dec {A} `{EqDecision A} : EqDecision (result A).
Proof. solve_decision. Defined.

Definition rbind {A B} (r : result A) (k : A → result B) : result B :=
  match r with
  | Return a => k a
  | Raise e => Raise e
  end.

Definition returns {A} (r : result A) : Prop := ∃ a, r = Return a.
Definition raises {A} (r : result A) : Prop := ∃ e, r = Raise e.

(** Keys of a Python [dict] built from JSON scalars. [True] and [1] (and
    [False] and [0]) are equal and hash alike, so they are one key. *)
Inductive pykey :=
| KNone
| KInt (z : Z)
| KStr (s : string).

Global Instance pykey_eq_dec : EqDecision pykey.
Proof. solve_decision. Defined.

Definition pykey_enc (k : pykey) : unit + (Z + string) :=
  match k with
  | KNone => inl tt
  | KInt z => inr (inl z)
  | KStr s => inr (inr s)
  end.

Definition pykey_dec (x : unit + (Z + string)) : pykey :=
  match x with
  | inl _ => KNone
  | inr (inl z) => KInt z
  | inr (inr s) => KStr s
  end.

Global Instance pykey_countable : Countable pykey.
Proof. apply (inj_countable' pykey_enc pykey_dec). by intros []. Defined.

(** An index: [dict] from ticker (or display name) to identifier. *)
Abbreviation index := (gmap pykey string).

(** [hash(x)] as [dict] needs it: lists and dicts are unhashable. *)
Definition py_key (v : json) : result pykey :=
  match v with
  | JNull => Return KNone
  | JBool b => Return (KInt (if b then 1 else 0))
  | JInt z => Return (KInt z)
  | JStr s => Return (KStr s)
  | JArr _ | JObj _ => Raise TypeError
  end.

(** [d[k]] for a string literal [k]. *)
Fixpoint assoc (k : string) (members : list (string * json)) : option json :=
  match members with
  | [] => None
  | (k', v) :: rest => if decide (k' = k) then Some v else assoc k rest
  end.

Definition getitem (v : json) (k : string) : result json :=
  match v with
  | JObj members =>
      match assoc k members with
      | Some x => Return x
      | None => Raise KeyError
      end
  | _ => Raise TypeError
  end.

(** [len(x)] *)
Definition py_len (v : json) : result Z :=
  match v with
  | JStr s => Return (Z.of_nat (String.length s))
  | JArr items => Return (Z.of_nat (length items))
  | JObj members => Return (Z.of_nat (length members))
  | _ => Raise TypeError
  end.

(** [c * k] for a one-character string [c]: empty when [k <= 0]. *)
Fixpoint repeat_char (c : ascii) (k : nat) : string :=
  match k with
  | O => EmptyString
  | S k' => String c (repeat_char c k')
  end.

Definition str_mul (c : ascii) (k : Z) : string := repeat_char c (Z.to_nat k).

(** [s + x] for a [str] [s]. *)
Definition str_add (s : string) (x : json) : result string :=
  match x with
  | JStr t => Return (s +:+ t)
  | _ => Raise TypeError
  end.

(** The characters of a [str], each as a [str] of length one. *)
Fixpoint chars (s : string) : list json :=
  match s with
  | EmptyString => []
  | String c rest => JStr (String c EmptyString) :: chars rest
  end.

(** [iter(x)]: the elements a [for] sees. *)
Definition py_iter (v : json) : result (list json) :=
  match v with
  | JArr items => Return items
  | JStr s => Return (chars s)
  | JObj members => Return (map (λ kv, JStr kv.1) members)
  | _ => Raise TypeError
  end.

(** ** Identifier normalization (lines 143-144) *)

(** [cik = '0' * (10 - len(cik)) + cik] on a [str]. *)
Definition pad_cik (cik : string) : string :=
  str_mul "0" (10 - Z.of_nat (String.length cik)) +:+ cik.

(** The same two lines on whatever [submission['cik']] holds. *)
Definition normalize_cik (cik : json) : result string :=
  rbind (py_len cik) (λ k, str_add (str_mul "0" (10 - k)) cik).

(** ** Files *)

(** A file as [json.load] sees it. *)
Inductive content :=
| Doc (v : json)
| Junk.

Definition json_load (c : content) : result json :=
  match c with
  | Doc v => Return v
  | Junk => Raise JSONDecodeError
  end.

(** ** The worker: [gather_index] (lines 135-151) *)

Record worker := Worker { ticker_map : index; company_map : index }.

(** State and exception monad: an exception leaves the state as it was
    when it was raised. The worker runs in [py worker], the coordinator
    in [py edgar]. *)
Definition py (S A : Type) : Type := S → result A * S.

Definition ret {S A} (a : A) : py S A := λ s, (Return a, s).

Definition bind {S A B} (m : py S A) (k : A → py S B) : py S B :=
  λ s, match m s with
       | (Return a, s') => k a s'
       | (Raise e, s') => (Raise e, s')
       end.

Definition lift {S A} (r : result A) : py S A := λ s, (r, s).

Notation "'let*' x ':=' m 'in' k" := (bind m (λ x, k))
  (at level 10, x name, m at level 100, k at level 200, only parsing).
Notation "m >>> k" := (bind m (λ _, k))
  (at level 90, right associativity, only parsing).

(** [try: body except: pass] *)
Definition try_pass {S} (body : py S unit) : py S unit :=
  λ w, (Return tt, (body w).2).

(** [company_map[name] = cik] *)
Definition set_company (name : json) (cik : string) : py worker unit :=
  let* k := lift (py_key name) in
  λ w, (Return tt, Worker (ticker_map w) (<[k := cik]> (company_map w))).

(** [{ticker: cik for ticker in tickers}], built in full before it is
    used: an unhashable ticker raises with nothing added. *)
Fixpoint comprehension (tickers : list json) (cik : string) (acc : index)
  : result index :=
  match tickers with
  | [] => Return acc
  | t :: rest => rbind (py_key t) (λ k, comprehension rest cik (<[k := cik]> acc))
  end.

(** [d.update(t)]: the entries of [t] win. *)
Definition update (d t : index) : index := t ∪ d.

Definition update_tickers (t : index) : py worker unit :=
  λ w, (Return tt, Worker (update (ticker_map w) t) (company_map w)).

(** Lines 142-147, the body of the [try]. *)
Definition index_submission (file : content) : py worker unit :=
  let* submission := lift (json_load file) in
  let* cik := lift (getitem submission "cik") in
  let* cik := lift (normalize_cik cik) in
  let* name := lift (getitem submission "name") in
  set_company name cik >>>
  let* tickers := lift (getitem submission "tickers") in
  let* elems := lift (py_iter tickers) in
  let* t := lift (comprehension elems cik ∅) in
  update_tickers t.

Section Worker.
(** [open(file_path)]: [None] when the path cannot be opened. *)
Variable open_file : string → option content.

Definition py_open (file_path : string) : py worker content :=
  match open_file file_path with
  | Some c => ret c
  | None => lift (Raise OSError)
  end.

(** The [for] loop of lines 139-149. *)
Fixpoint scan (files : list string) : py worker unit :=
  match files with
  | [] => ret tt
  | file_path :: rest =>
      let* submission_file := py_open file_path in
      try_pass (index_submission submission_file) >>>
      scan rest
  end.

Definition gather_index (files : list string) : result (index * index) :=
  match scan files (Worker ∅ ∅) with
  | (Return _, w) => Return (ticker_map w, company_map w)
  | (Raise e, _) => Raise e
  end.
End Worker.

(** ** The data directory *)

(** A directory entry: a regular file, or something [open] refuses
    (a subdirectory). *)
Inductive node :=
| File (c : content)
| Subdir.

(** A directory: its entries in the order [os.listdir] reports them. *)
Abbreviation dir := (list (string * node)).

Definition listdir (d : dir) : list string := map fst d.

Fixpoint dir_lookup (name : string) (d : dir) : option node :=
  match d with
  | [] => None
  | (name', x) :: rest =>
      if decide (name' = name) then Some x else dir_lookup name rest
  end.

(** Create or replace the entry [name]. *)
Fixpoint dir_write (name : string) (x : node) (d : dir) : dir :=
  match d with
  | [] => [(name, x)]
  | (name', y) :: rest =>
      if decide (name' = name) then (name, x) :: rest
      else (name', y) :: dir_write name x rest
  end.

(** A downloaded archive: its byte size and, when it is a ZIP file, its
    entries (flat file names). *)
Record archive := Archive {
  zip_size : Z;
  zip_entries : option (list (string * content))
}.

(** An index file, as lines 56 and 59 write it: the text
    [json.dumps(m, indent=4)] of a [dict] [m]. The text is a JSON object
    with one member for each key of the [dict], in insertion order: a
    [str] key gives the member its name, [None] is written "null", an
    [int] in decimal, [True] and [False] as "true" and "false". Two keys
    of the [dict] can so come out under one name ([None] and "null", [1]
    and "1"), and what [json.load] reads back from the text need not be
    the [dict]. An [index] records neither the insertion order nor
    whether a key equal to [1] was first inserted as [True]; the text is
    therefore not computed: the file is represented by the [dict] it was
    written from, which fixes the text up to the order of its members
    and the spelling of such a key. *)
Inductive index_file :=
| Dumps (m : index).

Global Instance index_file_eq_dec : EqDecision index_file.
Proof. solve_decision. Defined.

(** The root directory [self.path], one field per location the build
    touches. [None] is an absent file. [other_files] is the total size of
    any further regular files directly under the root. *)
Record disk := Disk {
  summary_json : option content;
  ticker_json : option index_file;
  company_json : option index_file;
  company_facts_zip : option archive;
  submissions_zip : option archive;
  company_facts : dir;
  submissions : dir;
  summaries : dir;
  other_files : Z
}.

(** The [EDGAR] object: its root path, the disk under it and the two
    in-memory maps. *)
Record edgar := Edgar {
  path : string;
  fs : disk;
  ticker_cik_map : index;
  company_cik_map : index
}.

Definition with_fs (f : disk → disk) (e : edgar) : edgar :=
  Edgar (path e) (f (fs e)) (ticker_cik_map e) (company_cik_map e).

(** The two (archive, folder) pairs [process_zip] is called on. *)
Inductive dataset := CompanyFactsData | SubmissionsData.

Definition zip_path (ds : dataset) (d : disk) : option archive :=
  match ds with
  | CompanyFactsData => company_facts_zip d
  | SubmissionsData => submissions_zip d
  end.

Definition folder_path (ds : dataset) (d : disk) : dir :=
  match ds with
  | CompanyFactsData => company_facts d
  | SubmissionsData => submissions d
  end.

Definition write_zip (ds : dataset) (a : archive) (d : disk) : disk :=
  match ds with
  | CompanyFactsData =>
      Disk (summary_json d) (ticker_json d) (company_json d) (Some a)
        (submissions_zip d) (company_facts d) (submissions d) (summaries d)
        (other_files d)
  | SubmissionsData =>
      Disk (summary_json d) (ticker_json d) (company_json d)
        (company_facts_zip d) (Some a) (company_facts d) (submissions d)
        (summaries d) (other_files d)
  end.

Definition write_folder (ds : dataset) (f : dir) (d : disk) : disk :=
  match ds with
  | CompanyFactsData =>
      Disk (summary_json d) (ticker_json d) (company_json d)
        (company_facts_zip d) (submissions_zip d) f (submissions d)
        (summaries d) (other_files d)
  | SubmissionsData =>
      Disk (summary_json d) (ticker_json d) (company_json d)
        (company_facts_zip d) (submissions_zip d) (company_facts d) f
        (summaries d) (other_files d)
  end.

(** ** [process_zip] (lines 123-132) *)

(** What [requests.get] meets. [Body a complete] streams [a] into the
    archive file; with [complete = false] the stream breaks after [a]
    has been written. *)
Inductive response :=
| NoConnection
| BadStatus
| Body (a : archive) (complete : bool).

(** Lines 124-128. *)
Definition download (r : response) (ds : dataset) : py disk unit :=
  match r with
  | NoConnection => lift (Raise ConnectionError)
  | BadStatus => lift (Raise HTTPError)
  | Body a complete =>
      λ d, (if complete then Return tt else Raise ConnectionError,
            write_zip ds a d)
  end.

(** [zip_file.extractall(folder_path)] *)
Definition extractall (entries : list (string * content)) (f : dir) : dir :=
  fold_left (λ acc e, dir_write e.1 (File e.2) acc) entries f.

(** Lines 130-132. *)
Definition extract (ds : dataset) : py disk unit :=
  λ d,
    if decide (Z.of_nat (length (listdir (folder_path ds d))) ≤ 0) then
      match zip_path ds d with
      | None => (Raise OSError, d)
      | Some a =>
          match zip_entries a with
          | None => (Raise BadZipFile, d)
          | Some entries =>
              (Return tt,
               write_folder ds (extractall entries (folder_path ds d)) d)
          end
      end
    else (Return tt, d).

Definition process_zip (r : response) (ds : dataset) : py disk unit :=
  download r ds >>> extract ds.

(** Run a disk action on the disk of the [EDGAR] object. *)
Definition on_disk {A} (m : py disk A) : py edgar A :=
  λ e, let '(r, d) := m (fs e) in (r, with_fs (λ _, d) e).

(** ** The coordinator: [EDGAR.build] (lines 33-76) *)

(** [pat in s] on two [str]. *)
Fixpoint contains (pat s : string) : bool :=
  String.prefix pat s ||
  match s with
  | EmptyString => false
  | String _ rest => contains pat rest
  end.

(** [os.path.join(a, b)] for a relative name [b]. *)
Definition join (a b : string) : string := a +:+ "/" +:+ b.

(** [open(os.path.join(base, name))] for the entries of one directory. *)
Fixpoint open_in (base : string) (d : dir) (file_path : string)
  : option content :=
  match d with
  | [] => None
  | (name, x) :: rest =>
      if decide (join base name = file_path) then
        match x with
        | File c => Some c
        | Subdir => None
        end
      else open_in base rest file_path
  end.

(** [l[i:j]] *)
Definition slice {A} (i j : nat) (l : list A) : list A :=
  take (j - i) (drop i l).

(** [range(0, stop, step)] for [step > 0]. *)
Definition py_range (stop step : nat) : list nat :=
  map (λ k, k * step)%nat
      (seq 0 (if decide (stop = 0)%nat then 0 else (stop - 1) / step + 1)%nat).

(** Lines 47-49: the slices handed to [pool.submit]. [n = 0] fails in
    the division, [n < 0] in [ProcessPoolExecutor(n)], a zero
    [chunk_size] in [range]. *)
Definition chunks (file_names : list string) (n : Z)
  : result (list (list string)) :=
  if decide (n = 0) then Raise ZeroDivisionError
  else
    let chunk_size := Z.of_nat (length file_names) `div` n in
    if decide (n < 0) then Raise ValueError
    else if decide (chunk_size = 0) then Raise ValueError
    else
      let step := Z.to_nat chunk_size in
      Return (map (λ i, slice i (i + step) file_names)
                  (py_range (length file_names) step)).

Definition set_summary_json (c : option content) (d : disk) : disk :=
  Disk c (ticker_json d) (company_json d) (company_facts_zip d)
    (submissions_zip d) (company_facts d) (submissions d) (summaries d)
    (other_files d).

Definition set_summaries (f : dir) (d : disk) : disk :=
  Disk (summary_json d) (ticker_json d) (company_json d)
    (company_facts_zip d) (submissions_zip d) (company_facts d)
    (submissions d) f (other_files d).

Definition set_ticker_json (f : index_file) (d : disk) : disk :=
  Disk (summary_json d) (Some f) (company_json d) (company_facts_zip d)
    (submissions_zip d) (company_facts d) (submissions d) (summaries d)
    (other_files d).

Definition set_company_json (f : index_file) (d : disk) : disk :=
  Disk (summary_json d) (ticker_json d) (Some f) (company_facts_zip d)
    (submissions_zip d) (company_facts d) (submissions d) (summaries d)
    (other_files d).

(** [os.rename(src, os.path.join(folder, name))] seen from [folder]: a
    name with a separator points below a subdirectory, taken not to
    exist; a directory of that name cannot be replaced by a file. *)
Definition rename_into (name : string) (c : content) (f : dir) : result dir :=
  if contains "/" name then Raise OSError
  else
    match dir_lookup name f with
    | Some Subdir => Raise OSError
    | _ => Return (dir_write name (File c) f)
    end.

(** [os.path.getsize] *)
Definition getsize (a : option archive) : result Z :=
  match a with
  | Some a => Return (zip_size a)
  | None => Raise OSError
  end.

(** [t, c = future.result()] and the two [update] calls (lines 51-53). *)
Definition merge_future (future : result (index * index)) : py edgar unit :=
  let* tc := lift future in
  λ e, (Return tt,
        Edgar (path e) (fs e) (update (ticker_cik_map e) tc.1)
          (update (company_cik_map e) tc.2)).

(** The loop of lines 50-53 over the futures in completion order. *)
Fixpoint merge (completed : list (result (index * index))) : py edgar unit :=
  match completed with
  | [] => ret tt
  | future :: rest => merge_future future >>> merge rest
  end.

(** What one call of [build] meets outside the program: the clock, the
    two HTTP responses and the order in which the futures complete. *)
Record run := Run {
  now : string;
  company_facts_response : response;
  submissions_response : response;
  as_completed : list (result (index * index)) → list (result (index * index))
}.

(** [as_completed] yields every future once, in some order. *)
Definition fair (r : run) : Prop := ∀ futures, as_completed r futures ≡ₚ futures.

Section Runtime.
(** [str(x)] as an f-string applies it to a value that is not a [str]. *)
Variable py_str : json → string.
(** The byte length of [json.dumps(m, indent=4)]. *)
Variable index_size : index → Z.

Definition format_value (v : json) : string :=
  match v with
  | JStr s => s
  | _ => py_str v
  end.

(** The f-string of line 41. *)
Definition archived_name (ts : json) : string :=
  "summary_" +:+ format_value ts +:+ ".json".

(** Lines 39-41. *)
Definition rotate_summary : py edgar unit :=
  λ e,
    match summary_json (fs e) with
    | None => (Return tt, e)
    | Some c =>
        (let* last_summary := lift (json_load c) in
         let* ts := lift (getitem last_summary "build_timestamp") in
         let* moved :=
           lift (rename_into (archived_name ts) c (summaries (fs e))) in
         λ e, (Return tt,
               with_fs (λ d, set_summaries moved (set_summary_json None d)) e))
          e
    end.

(** Line 46. *)
Definition file_names (e : edgar) : list string :=
  map (join (join (path e) "submissions"))
      (List.filter (contains ".json") (listdir (submissions (fs e)))).

(** Lines 47-53. *)
Definition build_index (n : Z) (r : run) : py edgar unit :=
  λ e,
    (let* parts := lift (chunks (file_names e) n) in
     let futures :=
       map (gather_index
              (open_in (join (path e) "submissions") (submissions (fs e))))
           parts in
     merge (as_completed r futures)) e.

(** Lines 55-59: each file is replaced by the text of the in-memory
    map. *)
Definition write_indices : py edgar unit :=
  λ e, (Return tt,
        with_fs (λ d, set_company_json (Dumps (company_cik_map e))
                        (set_ticker_json (Dumps (ticker_cik_map e)) d)) e).

(** [st_size] of an index file. *)
Definition file_size (f : index_file) : Z :=
  match f with
  | Dumps m => index_size m
  end.

(** The sum of line 64; [summary.json] has just been truncated and
    counts for nothing. *)
Definition total_size (d : disk) : Z :=
  from_option file_size 0 (ticker_json d)
  + from_option file_size 0 (company_json d)
  + from_option zip_size 0 (company_facts_zip d)
  + from_option zip_size 0 (submissions_zip d)
  + other_files d.

Definition summary (ts : string) (d : disk) (z_facts z_subs : Z) : json :=
  JObj [("build_timestamp", JStr ts);
        ("total_size", JInt (total_size d));
        ("company_facts",
         JObj [("files", JInt (Z.of_nat (length (listdir (company_facts d)))));
               ("zip_size", JInt z_facts)]);
        ("submissions",
         JObj [("files", JInt (Z.of_nat (length (listdir (submissions d)))));
               ("zip_size", JInt z_subs)])].

(** Lines 61-76. *)
Definition write_summary (ts : string) : py edgar unit :=
  (λ e, (Return tt, with_fs (set_summary_json (Some Junk)) e)) >>>
  let* z_facts := (λ e, (getsize (company_facts_zip (fs e)), e)) in
  let* z_subs := (λ e, (getsize (submissions_zip (fs e)), e)) in
  λ e, (Return tt,
        with_fs (λ d, set_summary_json
                        (Some (Doc (summary ts d z_facts z_subs))) d) e).

(** Lines 39-44: rotation, then the two archives. *)
Definition refresh (r : run) : py edgar unit :=
  rotate_summary >>>
  on_disk (process_zip (company_facts_response r) CompanyFactsData) >>>
  on_disk (process_zip (submissions_response r) SubmissionsData).

(** Lines 39-53: everything up to the end of the scan. *)
Definition prepare (n : Z) (r : run) : py edgar unit :=
  refresh r >>> build_index n r.

(** Lines 55-76. *)
Definition persist (r : run) : py edgar unit :=
  write_indices >>> write_summary (now r).

Definition build (n : Z) (r : run) : py edgar unit :=
  prepare n r >>> persist r.
End Runtime.

(** ** The accessor: [CompanyFacts.get] (lines 95-109) *)

Record Field := mkField { form : string; name : string; data : json }.

Module CompanyFacts.
Definition is_str (s : string) (v : json) : bool :=
  match v with
  | JStr t => bool_decide (t = s)
  | _ => false
  end.

(** [field_name in field_data] *)
Definition contains_item (field_data : json) (field_name : string)
  : result bool :=
  match field_data with
  | JObj members => Return (bool_decide (is_Some (assoc field_name members)))
  | JArr items => Return (existsb (is_str field_name) items)
  | JStr s => Return (contains field_name s)
  | _ => Raise TypeError
  end.

(** [d.items()] *)
Definition items (v : json) : result (list (string * json)) :=
  match v with
  | JObj members => Return members
  | _ => Raise AttributeError
  end.

(** The loop of lines 100-102; falling off its end returns [None]. *)
Fixpoint scan_groups (groups : list (string * json)) (field_name : string)
  : result (option Field) :=
  match groups with
  | [] => Return None
  | (form, field_data) :: rest =>
      rbind (contains_item field_data field_name) (λ found,
        if found then
          rbind (getitem field_data field_name) (λ d,
            Return (Some (mkField form field_name d)))
        else scan_groups rest field_name)
  end.

Definition get (raw_facts : json) (field_name : string)
  : result (option Field) :=
  rbind (getitem raw_facts "facts") (λ facts,
    rbind (items facts) (λ groups, scan_groups groups field_name)).
End CompanyFacts.

(** ** Predicates used in the statements *)





(** A submission record with the three members the index needs, all of
    the expected type. *)
Definition well_formed (v : json) (cik name : string) (tickers : list string)
  : Prop :=
  getitem v "cik" = Return (JStr cik) ∧
  getitem v "name" = Return (JStr name) ∧
  getitem v "tickers" = Return (JArr (map JStr tickers)).

(** Processing the file leaves the binding of [k] in the company-name
    map (in the ticker map) as it was. *)
Definition keeps_company (file : content) (k : pykey) : Prop :=
  ∀ w, company_map (index_submission file w).2 !! k = company_map w !! k.

Definition keeps_ticker (file : content) (k : pykey) : Prop :=
  ∀ w, ticker_map (index_submission file w).2 !! k = ticker_map w !! k.

(** Every identifier held by the worker satisfies [P]. *)
Definition stored (P : string → Prop) (w : worker) : Prop :=
  map_Forall (λ _ id, P id) (ticker_map w) ∧
  map_Forall (λ _ id, P id) (company_map w).

(** ** Sample data *)

Definition apple : json :=
  JObj [("cik", JStr "320193"); ("name", JStr "Apple Inc.");
        ("tickers", JArr [JStr "AAPL"])].

Definition amazon : json :=
  JObj [("cik", JStr "1018724"); ("name", JStr "Amazon.com Inc.");
        ("tickers", JArr [JStr "AMZN"; JStr "AMZN.B"])].

(** The submissions archive of the end-to-end scenario: two records and
    one file that is not JSON. *)
Definition submissions_archive : archive :=
  Archive 2048 (Some [("CIK0000320193.json", Doc apple);
                      ("CIK0001018724.json", Doc amazon);
                      ("CIK0000000003.json", Junk)]).

Definition facts_archive : archive :=
  Archive 4096
    (Some [("CIK0000320193.json",
            Doc (JObj [("cik", JInt 320193); ("entityName", JStr "Apple Inc.");
                       ("facts", JObj [("us-gaap", JObj [])])]))]).

(** A root directory right after [EDGAR.__init__] on an empty folder. *)
Definition fresh : edgar :=
  Edgar "data" (Disk None None None None None [] [] [] 0) ∅ ∅.

Definition scenario (ts : string)
    (order : list (result (index * index)) → list (result (index * index)))
  : run :=
  Run ts (Body facts_archive true) (Body submissions_archive true) order.

Definition expected_tickers : index :=
  {[KStr "AAPL" := "0000320193"; KStr "AMZN" := "0001018724";
    KStr "AMZN.B" := "0001018724"]}.

Definition expected_companies : index :=
  {[KStr "Apple Inc." := "0000320193";
    KStr "Amazon.com Inc." := "0001018724"]}.

(** ** The accessor: [lookup_cik] and [get_data] (lines 78-92) *)

(** [bool(x)] *)
Definition truthy (v : json) : bool :=
  match v with
  | JNull => false
  | JBool b => b
  | JInt z => negb (z =? 0)
  | JStr s => negb (String.eqb s "")
  | JArr items => negb (Nat.eqb (length items) 0)
  | JObj members => negb (Nat.eqb (length members) 0)
  end.

(** [key and key in m], then [m[key]]: [None] when the test fails. The
    key is hashed only when it is truthy. *)
Definition lookup_in (key : json) (m : index) : result (option string) :=
  if truthy key then rbind (py_key key) (λ k, Return (m !! k))
  else Return None.

(** Lines 78-82; the arguments default to [JNull]. Falling off the end
    returns [None]. *)
Definition lookup_cik (e : edgar) (ticker company_name : json)
  : result (option string) :=
  rbind (lookup_in ticker (ticker_cik_map e)) (λ found,
    match found with
    | Some cik => Return (Some cik)
    | None => lookup_in company_name (company_cik_map e)
    end).

Section Access.
(** [str(x)] as an f-string applies it to a value that is not a [str]. *)
Variable py_str : json → string.
(** [open(p)] when [os.path.isfile(p)], for a path [p] that continues
    below the company-facts folder with a name that has a separator in
    it: the operating system resolves such a path through subdirectories
    and back through "..", on parts of the file system the disk record
    does not hold. [None] when [os.path.isfile(p)] is false. *)
Variable open_nested : disk → string → option content.

(** [open(p)] when [os.path.isfile(p)], for
    [p = os.path.join(self._company_facts, file_name)]: a name without a
    separator is an entry of the folder. *)
Definition open_facts (d : disk) (file_name : string) : option content :=
  if contains "/" file_name then open_nested d file_name
  else
    match dir_lookup file_name (company_facts d) with
    | Some (File c) => Some c
    | _ => None
    end.

(** Lines 84-92. The result is the [dict] handed to [CompanyFacts]. *)
Definition get_data (e : edgar) (cik ticker company_name : json)
  : result json :=
  rbind (if truthy cik then Return cik
         else rbind (lookup_cik e ticker company_name) (λ found,
                Return (from_option JStr JNull found))) (λ cik,
    let facts_path := "CIK" +:+ format_value py_str cik +:+ ".json" in
    match truthy cik, open_facts (fs e) facts_path with
    | true, Some c => json_load c
    | _, _ => Raise ValueError
    end).
End Access.

(** ** [Field] (lines 105-120) *)

(** The [label] and [description] properties. *)
Definition label (f : Field) : result json := getitem (data f) "label".

Definition description (f : Field) : result json :=
  getitem (data f) "description".

(** One step of the generator of line 120. *)
Definition observation (item : json) : result (json * json * json) :=
  rbind (getitem item "fy") (λ fy,
    rbind (getitem item "fp") (λ fp,
      rbind (getitem item "val") (λ val, Return (fy, fp, val)))).

(** What exhausting the generator gives: the tuples it yields and the
    exception, if any, that ends it. *)
Fixpoint drain (items : list json) : list (json * json * json) * option exn :=
  match items with
  | [] => ([], None)
  | item :: rest =>
      match observation item with
      | Return t => (t :: (drain rest).1, (drain rest).2)
      | Raise x => ([], Some x)
      end
  end.

(** [__iter__]: the iterable [data['units']['USD']] is evaluated when the
    generator is made, its items when they are asked for. *)
Definition iter (f : Field) : result (list (json * json * json) * option exn) :=
  rbind (getitem (data f) "units") (λ units,
    rbind (getitem units "USD") (λ usd,
      rbind (py_iter usd) (λ items, Return (drain items)))).

(** * Properties *)

(** ** Identifier normalization *)

Lemma length_repeat_char c k : String.length (repeat_char c k) = k.
Proof. induction k as [|k IH]; simpl; congruence. Qed.

Lemma app_empty t : "" +:+ t = t.
Proof. reflexivity. Qed.

Lemma app_String c s t : String c s +:+ t = String c (s +:+ t).
Proof. reflexivity. Qed.

Lemma length_app s t :
  String.length (s +:+ t) = (String.length s + String.length t)%nat.
Proof.
  induction s as [|c s IH]; [by rewrite app_empty|].
  rewrite app_String. simpl. congruence.
Qed.

Lemma length_pad_cik s :
  String.length (pad_cik s) = Nat.max 10 (String.length s).
Proof.
  unfold pad_cik, str_mul. rewrite length_app, length_repeat_char. lia.
Qed.








(** ** Chunking (lines 47-49) *)

Lemma slice_take_drop {A} (l : list A) i step :
  slice i (i + step) l = take step (drop i l).
Proof. unfold slice. f_equal. lia. Qed.

Lemma concat_slices {A} (l : list A) step m :
  concat (map (λ i, slice i (i + step) l) (map (λ k, k * step)%nat (seq 0 m)))
  = take (m * step) l.
Proof.
  induction m as [|m IH]; [done|].
  rewrite seq_S, !map_app, concat_app, IH. simpl.
  rewrite app_nil_r, slice_take_drop, take_take_drop. f_equal. lia.
Qed.

(** Arithmetic of [len // n] and of the length of [range(0, len, step)]. *)
Lemma chunk_count_facts (len n : nat) :
  (1 ≤ n)%nat → (n ≤ len)%nat →
  let step := (len / n)%nat in
  let m := ((len - 1) / step + 1)%nat in
  (1 ≤ step)%nat ∧ (len ≤ m * step)%nat ∧ ((m - 1) * step < len)%nat ∧
  (n ≤ m)%nat ∧ (len `mod` n = 0 → m = n)%nat.
Proof.
  intros Hn Hlen step m.
  pose proof (Nat.div_mod_eq len n) as Hdm.
  pose proof (Nat.mod_upper_bound len n ltac:(lia)) as Hr.
  fold step in Hdm.
  assert (1 ≤ step)%nat as Hstep by (destruct step; [lia | lia]).
  pose proof (Nat.div_mod_eq (len - 1) step) as Hdm'.
  pose proof (Nat.mod_upper_bound (len - 1) step ltac:(lia)) as Hr'.
  subst m. set (q := ((len - 1) / step)%nat) in *.
  repeat split; nia.
Qed.

Lemma chunks_eq (files : list string) (n : Z) :
  1 ≤ n → n ≤ Z.of_nat (length files) →
  chunks files n =
  Return (map (λ i, slice i (i + length files / Z.to_nat n)%nat files)
              (py_range (length files) (length files / Z.to_nat n))).
Proof.
  intros Hn Hlen. unfold chunks.
  destruct (decide (n = 0)); [lia|]. destruct (decide (n < 0)); [lia|].
  assert (Z.of_nat (length files) `div` n
          = Z.of_nat (length files / Z.to_nat n)) as Hdiv.
  { rewrite Nat2Z.inj_div, Z2Nat.id by lia. done. }
  destruct (chunk_count_facts (length files) (Z.to_nat n)) as (Hstep & _);
    [lia | lia |].
  rewrite Hdiv. destruct (decide (_ = 0)); [lia|].
  by rewrite Nat2Z.id.
Qed.

Lemma py_range_eq (stop step : nat) :
  (1 ≤ stop)%nat →
  py_range stop step
  = map (λ k, k * step)%nat (seq 0 ((stop - 1) / step + 1)).
Proof. intros H. unfold py_range. destruct (decide (stop = 0)%nat); [lia|done]. Qed.

(** Whenever [chunks] returns, the slices put together are the list. *)
Lemma chunks_concat (files : list string) (n : Z) parts :
  chunks files n = Return parts → concat parts = files.
Proof.
  intros Hc.
  assert (1 ≤ n ∧ n ≤ Z.of_nat (length files)) as [Hn Hlen].
  { unfold chunks in Hc. repeat case_decide; try done.
    split; [lia|]. destruct (decide (n ≤ Z.of_nat (length files))); [done|].
    rewrite Z.div_small in * by lia. done. }
  rewrite chunks_eq in Hc by done. injection Hc as <-.
  rewrite py_range_eq by lia. rewrite concat_slices.
  apply take_ge.
  destruct (chunk_count_facts (length files) (Z.to_nat n)) as (_ & H & _); lia.
Qed.

(** C3, as stated, fails: three files and two workers give three chunks
    of one file each, not two chunks with the last one holding two. *)
Lemma chunks_count_counterexample :
  chunks ["a"; "b"; "c"] 2 = Return [["a"]; ["b"]; ["c"]] ∧
  ¬ (∃ parts, chunks ["a"; "b"; "c"] 2 = Return parts ∧
              Z.of_nat (length parts) = 2).
Proof.
  split; [reflexivity|].
  intros (parts & Hparts & Hlen). vm_compute in Hparts.
  injection Hparts as <-. simpl in Hlen. lia.
Qed.

(** C3, amended. For a file list of length [len] and a worker count [n]
    with [1 <= n <= len], the builder cuts the list into contiguous
    chunks of [len // n] files each, the last one possibly shorter but
    never empty; put together they are the original list. There are
    [ceil(len / (len // n))] chunks, at least [n], and exactly [n] when
    [n] divides [len]. *)
Theorem chunks_partition (files : list string) (n : Z) :
  1 ≤ n → n ≤ Z.of_nat (length files) →
  let step := (length files / Z.to_nat n)%nat in
  ∃ parts,
    chunks files n = Return parts ∧
    concat parts = files ∧
    length parts = ((length files - 1) / step + 1)%nat ∧
    n ≤ Z.of_nat (length parts) ∧
    (∀ i part, parts !! i = Some part →
       part = take step (drop (i * step) files) ∧
       (1 ≤ length part ≤ step)%nat ∧
       (S i < length parts → length part = step)%nat) ∧
    ((n | Z.of_nat (length files)) → Z.of_nat (length parts) = n).
Proof.
  intros Hn Hlen step.
  destruct (chunk_count_facts (length files) (Z.to_nat n))
    as (Hstep & Hcover & Hlast & Hcount & Hdiv); [lia | lia |].
  fold step in Hstep, Hcover, Hlast, Hcount, Hdiv.
  set (m := ((length files - 1) / step + 1)%nat) in *.
  eexists. split; [by apply chunks_eq|]. fold step.
  split; [by eapply chunks_concat, chunks_eq|].
  rewrite py_range_eq by lia. fold step m.
  rewrite !length_map, length_seq.
  split; [done|]. split; [lia|]. split.
  - intros i part Hi. rewrite !list_lookup_fmap in Hi.
    destruct (seq 0 m !! i) as [k|] eqn:Hk; [|done].
    apply lookup_seq in Hk as [-> Hk]. simpl in Hi. injection Hi as <-.
    rewrite slice_take_drop. split; [done|].
    rewrite length_take, length_drop. split; [nia|]. intros Hnext. nia.
  - intros [k Hk]. rewrite Hdiv; [lia|].
    apply Nat2Z.inj. rewrite Nat2Z.inj_mod, Z2Nat.id, Hk by lia.
    simpl. apply Z.mod_mul. lia.
Qed.

Lemma chunks_partition_witness :
  ∃ parts,
    chunks ["a"; "b"; "c"] 2 = Return parts ∧
    concat parts = ["a"; "b"; "c"] ∧
    length parts = 3%nat ∧
    2 ≤ Z.of_nat (length parts) ∧
    (∀ i part, parts !! i = Some part →
       part = take 1 (drop (i * 1) ["a"; "b"; "c"]) ∧
       (1 ≤ length part ≤ 1)%nat ∧
       (S i < length parts → length part = 1)%nat) ∧
    ((2 | 3) → Z.of_nat (length parts) = 2).
Proof.
  apply (chunks_partition ["a"; "b"; "c"] 2); simpl; lia.
Defined.

(** ** Extraction (lines 130-132) *)

Lemma folder_path_write_zip ds ds' a d :
  folder_path ds (write_zip ds' a d) = folder_path ds d.
Proof. by destruct ds, ds'. Qed.

Lemma extract_populated ds d :
  folder_path ds d ≠ [] → extract ds d = (Return tt, d).
Proof.
  intros Hne. unfold extract. case_decide as Hlen; [|done].
  destruct (folder_path ds d); [done | simpl in Hlen; lia].
Qed.

Lemma process_zip_populated r ds d :
  folder_path ds d ≠ [] →
  folder_path ds (process_zip r ds d).2 = folder_path ds d.
Proof.
  intros Hne. unfold process_zip, bind.
  destruct r as [| |a [|]]; simpl; try done.
  - rewrite extract_populated by by rewrite folder_path_write_zip.
    apply folder_path_write_zip.
  - apply folder_path_write_zip.
Qed.

(** C7. When the target directory already holds an entry, the extract
    step extracts nothing and changes nothing (whatever the archive is),
    and [process_zip], called once or twice, leaves the directory's
    contents as they were. *)
Theorem extract_skips_populated (ds : dataset) (d : disk) :
  folder_path ds d ≠ [] →
  extract ds d = (Return tt, d) ∧
  (∀ r, folder_path ds (process_zip r ds d).2 = folder_path ds d) ∧
  (∀ r r', folder_path ds (process_zip r' ds (process_zip r ds d).2).2
           = folder_path ds (process_zip r ds d).2).
Proof.
  intros Hne. split; [by apply extract_populated|].
  split; [intros r; by apply process_zip_populated|].
  intros r r'. apply process_zip_populated.
  by rewrite process_zip_populated.
Qed.

Lemma extract_skips_populated_witness :
  let d := Disk None None None None None []
             [("CIK0000320193.json", File Junk)] [] 0 in
  extract SubmissionsData d = (Return tt, d) ∧
  (∀ r, folder_path SubmissionsData (process_zip r SubmissionsData d).2
        = folder_path SubmissionsData d) ∧
  (∀ r r', folder_path SubmissionsData
             (process_zip r' SubmissionsData
                (process_zip r SubmissionsData d).2).2
           = folder_path SubmissionsData (process_zip r SubmissionsData d).2).
Proof.
  intros d. apply (extract_skips_populated SubmissionsData d). simpl. discriminate.
Defined.

(** An empty directory is filled from the archive, after which a second
    call finds it populated. *)
Lemma extract_empty ds d a entries :
  folder_path ds d = [] → zip_path ds d = Some a →
  zip_entries a = Some entries →
  extract ds d = (Return tt, write_folder ds (extractall entries []) d).
Proof.
  intros Hf Hz Ha. unfold extract. rewrite Hf, Hz, Ha. by case_decide.
Qed.

(** ** [CompanyFacts.get] *)

Lemma scan_groups_absent groups field_name :
  (∀ g, g ∈ groups → assoc field_name g.2 = None) →
  CompanyFacts.scan_groups (map (prod_map id JObj) groups) field_name
  = Return None.
Proof.
  induction groups as [|[form fields] groups IH]; intros Habs; [done|].
  pose proof (Habs (form, fields) ltac:(left)) as Hnone. simpl in Hnone.
  simpl. rewrite Hnone. simpl.
  apply IH. intros g Hg. apply Habs. by right.
Qed.

Lemma scan_groups_first before form fields after field_name d :
  (∀ g, g ∈ before → assoc field_name g.2 = None) →
  assoc field_name fields = Some d →
  CompanyFacts.scan_groups
    (map (prod_map id JObj) (before ++ (form, fields) :: after)) field_name
  = Return (Some (mkField form field_name d)).
Proof.
  intros Habs Hd. induction before as [|[form' fields'] before IH].
  - simpl. rewrite Hd. reflexivity.
  - pose proof (Habs (form', fields') ltac:(left)) as Hnone. simpl in Hnone.
    simpl. rewrite Hnone. simpl.
    apply IH. intros g Hg. apply Habs. by right.
Qed.

(** C10. For a loaded entity record whose "facts" member maps each form
    to a group of fields: when no group contains the field name, [get]
    returns [None] and does not raise; otherwise it returns the [Field]
    built from the first group, in iteration order, that contains it. *)
Theorem get_first_group (raw_facts : json)
    (groups : list (string * list (string * json))) (field_name : string) :
  getitem raw_facts "facts" = Return (JObj (map (prod_map id JObj) groups)) →
  ((∀ g, g ∈ groups → assoc field_name g.2 = None) →
   CompanyFacts.get raw_facts field_name = Return None) ∧
  (∀ before form fields after d,
     groups = (before ++ (form, fields) :: after)%list →
     (∀ g, g ∈ before → assoc field_name g.2 = None) →
     assoc field_name fields = Some d →
     CompanyFacts.get raw_facts field_name
     = Return (Some (mkField form field_name d))).
Proof.
  intros Hfacts. unfold CompanyFacts.get. rewrite Hfacts. simpl. split.
  - apply scan_groups_absent.
  - intros before form fields after d -> Habs Hd.
    by apply scan_groups_first.
Qed.

Lemma get_first_group_witness :
  let assets := JObj [("label", JStr "Assets")] in
  let groups := [("dei", [("EntityCommonStockSharesOutstanding", JNull)]);
                 ("us-gaap", [("Assets", assets)]);
                 ("ifrs-full", [("Assets", JNull)])] in
  let raw_facts := JObj [("cik", JInt 320193);
                         ("facts", JObj (map (prod_map id JObj) groups))] in
  CompanyFacts.get raw_facts "Liabilities" = Return None ∧
  CompanyFacts.get raw_facts "Assets"
  = Return (Some (mkField "us-gaap" "Assets" assets)).
Proof.
  intros assets groups raw_facts.
  destruct (get_first_group raw_facts groups "Liabilities" eq_refl) as [Hnone _].
  destruct (get_first_group raw_facts groups "Assets" eq_refl) as [_ Hfirst].
  split.
  - apply Hnone. intros g Hg. subst groups.
    repeat (apply elem_of_cons in Hg as [->|Hg]; [reflexivity|]).
    by apply elem_of_nil in Hg.
  - apply (Hfirst [("dei", [("EntityCommonStockSharesOutstanding", JNull)])]
             "us-gaap" [("Assets", assets)] [("ifrs-full", [("Assets", JNull)])]
             assets eq_refl); [|reflexivity].
    intros g Hg. apply list_elem_of_singleton in Hg as ->. reflexivity.
Defined.

(** ** The worker *)

Section WorkerFacts.
Variable open_file : string → option content.

Lemma scan_cons file_path rest w :
  scan open_file (file_path :: rest) w =
  match open_file file_path with
  | Some c => scan open_file rest (index_submission c w).2
  | None => (Raise OSError, w)
  end.
Proof.
  simpl. unfold bind, py_open, try_pass, ret, lift.
  by destruct (open_file file_path).
Qed.

Lemma scan_app files files' w :
  (∀ q, q ∈ files → is_Some (open_file q)) →
  scan open_file (files ++ files') w
  = scan open_file files' (scan open_file files w).2.
Proof.
  revert w. induction files as [|p files IH]; intros w Hopen; [done|].
  rewrite <- app_comm_cons, !scan_cons.
  destruct (Hopen p ltac:(left)) as [c ->].
  apply IH. intros q Hq. apply Hopen. by right.
Qed.

(** With every path openable the loop runs to its end. *)
Lemma scan_returns files w :
  (∀ q, q ∈ files → is_Some (open_file q)) →
  (scan open_file files w).1 = Return tt.
Proof.
  revert w. induction files as [|p files IH]; intros w Hopen; [done|].
  rewrite scan_cons. destruct (Hopen p ltac:(left)) as [c ->].
  apply IH. intros q Hq. apply Hopen. by right.
Qed.

(** A path that cannot be opened stops the loop with [OSError]. *)
Lemma scan_unopenable files w p :
  p ∈ files → open_file p = None →
  (scan open_file files w).1 = Raise OSError.
Proof.
  revert w. induction files as [|q files IH]; intros w Hin Hnone.
  - by apply elem_of_nil in Hin.
  - rewrite scan_cons. destruct (open_file q) as [c|] eqn:Hq; [|done].
    apply elem_of_cons in Hin as [->|Hin]; [congruence|]. by apply IH.
Qed.

Lemma gather_index_returns files :
  (∀ q, q ∈ files → is_Some (open_file q)) →
  gather_index open_file files
  = Return (ticker_map (scan open_file files (Worker ∅ ∅)).2,
            company_map (scan open_file files (Worker ∅ ∅)).2).
Proof.
  intros Hopen. unfold gather_index.
  pose proof (scan_returns files (Worker ∅ ∅) Hopen) as Hret.
  destruct (scan open_file files (Worker ∅ ∅)) as [[[]|] w]; by simplify_eq/=.
Qed.

Lemma gather_index_unopenable files p :
  p ∈ files → open_file p = None →
  gather_index open_file files = Raise OSError.
Proof.
  intros Hin Hnone. unfold gather_index.
  pose proof (scan_unopenable files (Worker ∅ ∅) p Hin Hnone) as Hret.
  destruct (scan open_file files (Worker ∅ ∅)) as [[[]|] w]; by simplify_eq/=.
Qed.

(** [gather_index] raises nothing but the [OSError] of [open]. *)
Lemma gather_index_raise files x :
  gather_index open_file files = Raise x →
  ∃ p, p ∈ files ∧ open_file p = None.
Proof.
  intros Hx.
  destruct (decide (Forall (λ q, is_Some (open_file q)) files)) as [Hall|Hex].
  - rewrite gather_index_returns in Hx; [done|].
    intros q Hq. by eapply Forall_forall in Hall.
  - apply (not_Forall_Exists _), Exists_exists in Hex as (p & Hp & Hnone).
    exists p. split; [done|].
    destruct (open_file p) eqn:Hp'; [|done]. exfalso. apply Hnone. eauto.
Qed.

(** A property of the stored identifiers that each file preserves
    holds at the end of the loop. *)
Lemma scan_invariant (I : worker → Prop) files w :
  (∀ q c w', q ∈ files → open_file q = Some c → I w' →
             I (index_submission c w').2) →
  I w → I (scan open_file files w).2.
Proof.
  revert w. induction files as [|p files IH]; intros w Hstep Hw; [done|].
  rewrite scan_cons. destruct (open_file p) as [c|] eqn:Hp; [|done].
  apply IH.
  - intros q c' w' Hq. apply Hstep. by right.
  - apply (Hstep p); [by left | done | done].
Qed.
End WorkerFacts.

Lemma normalize_cik_str s : normalize_cik (JStr s) = Return (pad_cik s).
Proof. reflexivity. Qed.

(** Only a [str] survives lines 143-144. *)
Lemma normalize_cik_inv x id :
  normalize_cik x = Return id → ∃ s, x = JStr s ∧ id = pad_cik s.
Proof.
  destruct x; try done. intros [= <-]. eauto.
Qed.

Lemma comprehension_strs tickers cik acc :
  comprehension (map JStr tickers) cik acc
  = Return (foldl (λ m t, <[KStr t := cik]> m) acc tickers).
Proof.
  revert acc. induction tickers as [|t tickers IH]; intros acc; [done|].
  simpl. apply IH.
Qed.

Lemma lookup_foldl_insert_ne (tickers : list string) cik (acc : index) k :
  (∀ t, t ∈ tickers → k ≠ KStr t) →
  foldl (λ m t, <[KStr t := cik]> m) acc tickers !! k = acc !! k.
Proof.
  revert acc. induction tickers as [|t tickers IH]; intros acc Hne; [done|].
  simpl. rewrite IH by (intros t' Ht'; apply Hne; by right).
  apply lookup_insert_ne. intros <-. by apply (Hne t); [left|].
Qed.

Lemma lookup_foldl_insert (tickers : list string) cik (acc : index) t :
  t ∈ tickers →
  foldl (λ m t, <[KStr t := cik]> m) acc tickers !! KStr t = Some cik.
Proof.
  revert acc. induction tickers as [|t' tickers IH]; intros acc Hin.
  - by apply elem_of_nil in Hin.
  - simpl. destruct (decide (t ∈ tickers)) as [Hin'|Hnot]; [by apply IH|].
    apply elem_of_cons in Hin as [->|Hin]; [|done].
    rewrite lookup_foldl_insert_ne; [apply lookup_insert_eq|].
    intros t Ht [= ->]. done.
Qed.

Lemma comprehension_values (P : string → Prop) elems cik acc t :
  comprehension elems cik acc = Return t →
  P cik → map_Forall (λ _ id, P id) acc → map_Forall (λ _ id, P id) t.
Proof.
  revert acc. induction elems as [|x elems IH]; intros acc Hc Hcik Hacc.
  - by injection Hc as <-.
  - simpl in Hc. destruct (py_key x) as [k|]; [|done]. simpl in Hc.
    eapply IH; [done | done |]. by apply map_Forall_insert_2.
Qed.

(** What one pass through the [try] body leaves behind: nothing, the
    company entry alone (a later line raised), or both updates. *)
Lemma index_submission_cases file w :
  (index_submission file w).2 = w ∨
  ∃ v s k,
    file = Doc v ∧ getitem v "cik" = Return (JStr s) ∧
    ((index_submission file w).2
     = Worker (ticker_map w) (<[k := pad_cik s]> (company_map w)) ∨
     ∃ elems t,
       comprehension elems (pad_cik s) ∅ = Return t ∧
       (index_submission file w).2
       = Worker (update (ticker_map w) t) (<[k := pad_cik s]> (company_map w))).
Proof.
  destruct w as [tm cm].
  destruct file as [v|]; [|by left].
  unfold index_submission, set_company, update_tickers, bind, lift. simpl.
  destruct (getitem v "cik") as [x|] eqn:Hcik; [|by left].
  destruct (normalize_cik x) as [id|] eqn:Hnorm; [|by left].
  apply normalize_cik_inv in Hnorm as (s & -> & ->).
  destruct (getitem v "name") as [nm|] eqn:Hname; [|by left].
  destruct (py_key nm) as [k|] eqn:Hk; [|by left].
  right. exists v, s, k. split; [done|]. split; [done|].
  destruct (getitem v "tickers") as [ts|]; [|by left].
  destruct (py_iter ts) as [elems|]; [|by left].
  destruct (comprehension elems (pad_cik s) ∅) as [t|] eqn:Ht; [|by left].
  right. by exists elems, t.
Qed.

Lemma index_submission_junk w : (index_submission Junk w).2 = w.
Proof. reflexivity. Qed.

Lemma index_submission_well_formed v cik name tickers w :
  well_formed v cik name tickers →
  (index_submission (Doc v) w).2
  = Worker (update (ticker_map w)
              (foldl (λ m t, <[KStr t := pad_cik cik]> m) ∅ tickers))
           (<[KStr name := pad_cik cik]> (company_map w)).
Proof.
  intros (Hcik & Hname & Htickers).
  unfold index_submission, set_company, update_tickers, bind, lift. simpl.
  rewrite Hcik, normalize_cik_str, Hname. simpl. rewrite Htickers. simpl.
  by rewrite comprehension_strs.
Qed.

(** Keys are never removed. *)
Lemma index_submission_keeps_keys file w :
  (∀ k, is_Some (company_map w !! k) →
        is_Some (company_map (index_submission file w).2 !! k)) ∧
  (∀ k, is_Some (ticker_map w !! k) →
        is_Some (ticker_map (index_submission file w).2 !! k)).
Proof.
  destruct (index_submission_cases file w)
    as [-> | (v & s & k' & _ & _ & [-> | (elems & t & _ & ->)])];
    simpl; split; intros k Hk; try done.
  - rewrite lookup_insert. case_decide; eauto.
  - rewrite lookup_insert. case_decide; eauto.
  - unfold update. apply lookup_union_is_Some. by right.
Qed.

Lemma index_submission_stored (P : string → Prop) file w :
  (∀ v s, file = Doc v → getitem v "cik" = Return (JStr s) → P (pad_cik s)) →
  stored P w → stored P (index_submission file w).2.
Proof.
  intros Hcik [Ht Hc].
  destruct (index_submission_cases file w)
    as [-> | (v & s & k' & Hv & Hs & [-> | (elems & t & Hcomp & ->)])];
    [done | |]; split; simpl; try done.
  - apply map_Forall_insert_2; eauto.
  - unfold update. apply map_Forall_union_2; [|done].
    eapply comprehension_values; [done | eauto |]. apply map_Forall_empty.
  - apply map_Forall_insert_2; eauto.
Qed.

(** *** Width of the stored identifiers *)

(** C6, as stated, fails: an identifier of 11 characters is stored as it
    is, in both maps. *)
Lemma stored_identifier_width_counterexample :
  let record := Doc (JObj [("cik", JStr "12345678901");
                           ("name", JStr "Long Id Corp");
                           ("tickers", JArr [JStr "LONG"])]) in
  let open_file := λ p, if decide (p = "CIK12345678901.json")
                        then Some record else None in
  ∃ t c,
    gather_index open_file ["CIK12345678901.json"] = Return (t, c) ∧
    t !! KStr "LONG" = Some "12345678901" ∧
    c !! KStr "Long Id Corp" = Some "12345678901" ∧
    String.length "12345678901" ≠ 10%nat.
Proof.
  intros record open_file. eexists _, _. split; [reflexivity|].
  split; [reflexivity|]. split; [reflexivity|]. simpl. lia.
Qed.

(** Whatever the records hold, a stored identifier has at least 10
    characters. *)
Lemma stored_identifier_min_width open_file files t c :
  gather_index open_file files = Return (t, c) →
  ∀ k id, t !! k = Some id ∨ c !! k = Some id → (10 ≤ String.length id)%nat.
Proof.
  intros Hg k id Hid. unfold gather_index in Hg.
  pose proof (scan_invariant open_file
                (stored (λ id, (10 ≤ String.length id)%nat)) files (Worker ∅ ∅))
    as Hinv.
  destruct (scan open_file files (Worker ∅ ∅)) as [[[]|] w]; [|done].
  injection Hg as <- <-. destruct Hinv as [Ht Hc].
  - intros q f w' _ _. apply index_submission_stored.
    intros v s _ _. rewrite length_pad_cik. lia.
  - split; apply map_Forall_empty.
  - destruct Hid as [Hid|Hid]; [by apply (Ht k) | by apply (Hc k)].
Qed.

(** C6, amended. When the cik of every input record that is a string has
    at most 10 characters, every identifier the index builder stores in
    the ticker map or in the company-name map is a string of exactly 10
    characters. *)
Theorem stored_identifier_width (open_file : string → option content)
    (files : list string) (t c : index) :
  (∀ p v s, p ∈ files → open_file p = Some (Doc v) →
            getitem v "cik" = Return (JStr s) → (String.length s ≤ 10)%nat) →
  gather_index open_file files = Return (t, c) →
  ∀ k id, t !! k = Some id ∨ c !! k = Some id → String.length id = 10%nat.
Proof.
  intros Hshort Hg k id Hid. unfold gather_index in Hg.
  pose proof (scan_invariant open_file
                (stored (λ id, String.length id = 10%nat)) files (Worker ∅ ∅))
    as Hinv.
  destruct (scan open_file files (Worker ∅ ∅)) as [[[]|] w]; [|done].
  injection Hg as <- <-. destruct Hinv as [Ht Hc].
  - intros q f w' Hq Hf. apply index_submission_stored.
    intros v s -> Hs. rewrite length_pad_cik.
    specialize (Hshort q v s Hq Hf Hs). lia.
  - split; apply map_Forall_empty.
  - destruct Hid as [Hid|Hid]; [by apply (Ht k) | by apply (Hc k)].
Qed.

Lemma stored_identifier_width_witness :
  gather_index
    (λ p, if decide (p = "CIK0000320193.json") then Some (Doc apple) else None)
    ["CIK0000320193.json"]
  = Return ({[KStr "AAPL" := "0000320193"]},
            {[KStr "Apple Inc." := "0000320193"]}) ∧
  String.length "0000320193" = 10%nat.
Proof.
  split; [reflexivity|].
  apply (stored_identifier_width
           (λ p, if decide (p = "CIK0000320193.json")
                 then Some (Doc apple) else None)
           ["CIK0000320193.json"]
           {[KStr "AAPL" := "0000320193"]}
           {[KStr "Apple Inc." := "0000320193"]}) with (KStr "AAPL").
  - intros p v s Hp Hv Hs. apply list_elem_of_singleton in Hp as ->.
    injection Hv as <-. injection Hs as <-. simpl. lia.
  - reflexivity.
  - left. reflexivity.
Defined.

(** *** A malformed record among well-formed ones *)

Lemma keeps_company_junk k : keeps_company Junk k.
Proof. by intros w. Qed.

Lemma keeps_ticker_junk k : keeps_ticker Junk k.
Proof. by intros w. Qed.

Lemma keeps_company_other_name v cik name tickers name' :
  well_formed v cik name tickers → name ≠ name' →
  keeps_company (Doc v) (KStr name').
Proof.
  intros Hv Hne w. rewrite (index_submission_well_formed _ _ _ _ _ Hv). simpl.
  apply lookup_insert_ne. congruence.
Qed.

Lemma keeps_ticker_other_ticker v cik name tickers tk :
  well_formed v cik name tickers → tk ∉ tickers →
  keeps_ticker (Doc v) (KStr tk).
Proof.
  intros Hv Hne w. rewrite (index_submission_well_formed _ _ _ _ _ Hv). simpl.
  unfold update. apply lookup_union_r.
  rewrite lookup_foldl_insert_ne; [apply lookup_empty|].
  intros t Ht [= ->]. done.
Qed.

(** A record that lacks its tickers has already written its display
    name when the [try] is left: the file is not skipped as a whole. *)
Lemma record_without_tickers_writes_name w :
  (index_submission
     (Doc (JObj [("cik", JStr "2"); ("name", JStr "Acme")])) w).2
  = Worker (ticker_map w) (<[KStr "Acme" := "0000000002"]> (company_map w)).
Proof. reflexivity. Qed.

(** Within one worker the files are indexed in list order. In a file
    list whose paths can all be opened, files that fail to parse or lack
    a field never make [gather_index] raise; every display name and
    every ticker of a well-formed record is a key of the resulting maps,
    and it is bound to that record's normalized identifier unless a
    later file of the list writes the same key. *)
Lemma gather_index_later_file_wins (open_file : string → option content)
    (before after : list string) (p : string) (v : json)
    (cik name : string) (tickers : list string) :
  (∀ q, q ∈ (before ++ p :: after)%list → is_Some (open_file q)) →
  open_file p = Some (Doc v) →
  well_formed v cik name tickers →
  ∃ t c,
    gather_index open_file (before ++ p :: after)%list = Return (t, c) ∧
    is_Some (c !! KStr name) ∧
    (∀ tk, tk ∈ tickers → is_Some (t !! KStr tk)) ∧
    ((∀ q f, q ∈ after → open_file q = Some f → keeps_company f (KStr name)) →
     c !! KStr name = Some (pad_cik cik)) ∧
    (∀ tk, tk ∈ tickers →
       (∀ q f, q ∈ after → open_file q = Some f → keeps_ticker f (KStr tk)) →
       t !! KStr tk = Some (pad_cik cik)).
Proof.
  intros Hopen Hp Hv. eexists _, _.
  split; [by apply gather_index_returns|].
  rewrite scan_app by (intros q Hq; apply Hopen, elem_of_app; by left).
  rewrite scan_cons, Hp, (index_submission_well_formed _ _ _ _ _ Hv).
  set (w1 := (scan open_file before (Worker ∅ ∅)).2).
  set (w2 := Worker _ _).
  assert (company_map w2 !! KStr name = Some (pad_cik cik)) as Hc2
    by apply lookup_insert_eq.
  assert (∀ tk, tk ∈ tickers → ticker_map w2 !! KStr tk = Some (pad_cik cik))
    as Ht2.
  { intros tk Htk. simpl. unfold update. apply lookup_union_Some_l.
    by apply lookup_foldl_insert. }
  repeat split.
  - apply (scan_invariant open_file
             (λ w, is_Some (company_map w !! KStr name))); [|by rewrite Hc2].
    intros q f w _ _. apply index_submission_keeps_keys.
  - intros tk Htk.
    apply (scan_invariant open_file
             (λ w, is_Some (ticker_map w !! KStr tk))); [|by rewrite Ht2].
    intros q f w _ _. apply index_submission_keeps_keys.
  - intros Hkeep.
    apply (scan_invariant open_file
             (λ w, company_map w !! KStr name = Some (pad_cik cik))); [|done].
    intros q f w Hq Hf Hw. by rewrite (Hkeep q f Hq Hf w).
  - intros tk Htk Hkeep.
    apply (scan_invariant open_file
             (λ w, ticker_map w !! KStr tk = Some (pad_cik cik))); [|by apply Ht2].
    intros q f w Hq Hf Hw. by rewrite (Hkeep q f Hq Hf w).
Qed.

(** ** The coordinator *)

Lemma dir_lookup_write_eq name x (d : dir) :
  dir_lookup name (dir_write name x d) = Some x.
Proof.
  induction d as [|[name' y] d IH]; simpl.
  - by rewrite decide_True.
  - destruct (decide (name' = name)) as [->|Hne]; simpl.
    + by rewrite decide_True.
    + by rewrite decide_False.
Qed.

Lemma rename_into_lookup name c f moved :
  rename_into name c f = Return moved → dir_lookup name moved = Some (File c).
Proof.
  unfold rename_into. destruct (contains "/" name); [done|].
  destruct (dir_lookup name f) as [[|]|]; intros [= <-];
    apply dir_lookup_write_eq.
Qed.

Lemma process_zip_frame r ds d res d' :
  process_zip r ds d = (res, d') →
  summary_json d' = summary_json d ∧ ticker_json d' = ticker_json d ∧
  company_json d' = company_json d ∧ summaries d' = summaries d ∧
  other_files d' = other_files d ∧
  (res = Return tt → is_Some (zip_path ds d')) ∧
  (∀ ds', ds' ≠ ds →
     zip_path ds' d' = zip_path ds' d ∧ folder_path ds' d' = folder_path ds' d).
Proof.
  unfold process_zip, bind, download, extract, lift.
  destruct r as [| |a [|]]; simpl.
  - intros [= <- <-]. by repeat split.
  - intros [= <- <-]. by repeat split.
  - case_decide.
    + destruct ds; simpl; destruct (zip_entries a);
        intros [= <- <-]; repeat split; simpl; eauto;
        by destruct ds'.
    + destruct ds; simpl; intros [= <- <-]; repeat split; simpl; eauto;
        by destruct ds'.
  - destruct ds; simpl; intros [= <- <-]; repeat split; simpl; try done;
      by destruct ds'.
Qed.

Lemma on_disk_eq {A} (m : py disk A) e :
  on_disk m e = ((m (fs e)).1,
                 Edgar (path e) (m (fs e)).2 (ticker_cik_map e)
                   (company_cik_map e)).
Proof. unfold on_disk, with_fs. by destruct (m (fs e)). Qed.

Lemma merge_frame completed e :
  fs (merge completed e).2 = fs e ∧ path (merge completed e).2 = path e.
Proof.
  revert e. induction completed as [|[[t c]|x] completed IH]; intros e; try done.
  simpl. unfold bind, merge_future, lift. simpl.
  destruct (IH (Edgar (path e) (fs e) (update (ticker_cik_map e) t)
                  (update (company_cik_map e) c))) as [-> ->]. done.
Qed.

(** One failed future is enough to stop the merge, wherever it comes in
    the completion order. *)
Lemma merge_raises completed e x :
  Raise x ∈ completed → raises (merge completed e).1.
Proof.
  revert e. induction completed as [|[[t c]|y] completed IH]; intros e Hin.
  - by apply elem_of_nil in Hin.
  - apply elem_of_cons in Hin as [?|Hin]; [done|].
    simpl. unfold bind, merge_future, lift. simpl. by apply IH.
  - by exists y.
Qed.

(** With no failed future the merge is the left-to-right [update]. *)
Lemma merge_returns (completed : list (index * index)) e :
  merge (map Return completed) e
  = (Return tt,
     Edgar (path e) (fs e)
       (foldl (λ m tc, update m tc.1) (ticker_cik_map e) completed)
       (foldl (λ m tc, update m tc.2) (company_cik_map e) completed)).
Proof.
  revert e. induction completed as [|[t c] completed IH]; intros e.
  - by destruct e.
  - simpl. unfold bind, merge_future, lift. simpl. by rewrite IH.
Qed.

Section BuildFacts.
Variable py_str : json → string.
Variable index_size : index → Z.

Lemma rotate_summary_spec e res e' :
  rotate_summary py_str e = (res, e') →
  (e' = e ∧ (res = Return tt → summary_json (fs e) = None)) ∨
  (res = Return tt ∧
   ∃ v ts moved,
     summary_json (fs e) = Some (Doc v) ∧
     getitem v "build_timestamp" = Return ts ∧
     rename_into (archived_name py_str ts) (Doc v) (summaries (fs e))
     = Return moved ∧
     e' = with_fs (λ d, set_summaries moved (set_summary_json None d)) e).
Proof.
  unfold rotate_summary, bind, lift.
  destruct (summary_json (fs e)) as [[v|]|] eqn:Hs; simpl.
  - destruct (getitem v "build_timestamp") as [ts|] eqn:Hts;
      [|intros [= <- <-]; by left].
    destruct (rename_into _ _ _) as [moved|] eqn:Hmv;
      [|intros [= <- <-]; by left].
    intros [= <- <-]. right. split; [done|]. by exists v, ts, moved.
  - intros [= <- <-]. by left.
  - intros [= <- <-]. by left.
Qed.

Lemma build_index_frame n r e :
  fs (build_index n r e).2 = fs e ∧ path (build_index n r e).2 = path e.
Proof.
  unfold build_index, bind, lift.
  destruct (chunks (file_names e) n); [|done]. apply merge_frame.
Qed.

(** With both archives on disk the last phase cannot fail. *)
Lemma persist_spec r e :
  is_Some (company_facts_zip (fs e)) → is_Some (submissions_zip (fs e)) →
  ∃ e' s,
    persist index_size r e = (Return tt, e') ∧
    ticker_json (fs e') = Some (Dumps (ticker_cik_map e)) ∧
    company_json (fs e') = Some (Dumps (company_cik_map e)) ∧
    summary_json (fs e') = Some (Doc s) ∧
    getitem s "build_timestamp" = Return (JStr (now r)) ∧
    summaries (fs e') = summaries (fs e) ∧
    ticker_cik_map e' = ticker_cik_map e ∧
    company_cik_map e' = company_cik_map e.
Proof.
  intros [a1 H1] [a2 H2].
  unfold persist, write_indices, write_summary, bind, with_fs. simpl.
  rewrite H1, H2. simpl. eexists _, _. by repeat split.
Qed.
End BuildFacts.

Section BuildPhases.
Variable py_str : json → string.
Variable index_size : index → Z.

Lemma build_unfold n r e :
  build py_str index_size n r e =
  match prepare py_str n r e with
  | (Return _, mid) => persist index_size r mid
  | (Raise x, mid) => (Raise x, mid)
  end.
Proof. reflexivity. Qed.

(** What rotation and the two [process_zip] calls do to the root
    directory. *)
Lemma refresh_spec r e res e' :
  refresh py_str r e = (res, e') →
  path e' = path e ∧
  ticker_json (fs e') = ticker_json (fs e) ∧
  company_json (fs e') = company_json (fs e) ∧
  (res = Return tt →
   is_Some (company_facts_zip (fs e')) ∧ is_Some (submissions_zip (fs e'))) ∧
  (submissions (fs e) ≠ [] → submissions (fs e') = submissions (fs e)) ∧
  ((summary_json (fs e') = summary_json (fs e) ∧
    summaries (fs e') = summaries (fs e) ∧
    (res = Return tt → summary_json (fs e) = None)) ∨
   (∃ v ts,
      summary_json (fs e) = Some (Doc v) ∧
      getitem v "build_timestamp" = Return ts ∧
      summary_json (fs e') = None ∧
      rename_into (archived_name py_str ts) (Doc v) (summaries (fs e))
      = Return (summaries (fs e')))).
Proof.
  unfold refresh, bind.
  destruct (rotate_summary py_str e) as [res0 e0] eqn:Hrot.
  apply rotate_summary_spec in Hrot.
  assert (path e0 = path e ∧ ticker_json (fs e0) = ticker_json (fs e) ∧
          company_json (fs e0) = company_json (fs e) ∧
          submissions (fs e0) = submissions (fs e) ∧
          ((summary_json (fs e0) = summary_json (fs e) ∧
            summaries (fs e0) = summaries (fs e) ∧
            (res0 = Return tt → summary_json (fs e) = None)) ∨
           (∃ v ts,
              summary_json (fs e) = Some (Doc v) ∧
              getitem v "build_timestamp" = Return ts ∧
              summary_json (fs e0) = None ∧
              rename_into (archived_name py_str ts) (Doc v) (summaries (fs e))
              = Return (summaries (fs e0)))))
    as (Hp0 & Ht0 & Hc0 & Hs0 & Hrot0).
  { destruct Hrot as [[-> Hnone] | (-> & v & ts & moved & Hv & Hts & Hmv & ->)].
    - repeat split; try done. by left.
    - repeat split; try done. right. by exists v, ts. }
  destruct res0 as [[]|x0].
  2:{ intros [= <- <-]. by repeat split. }
  rewrite on_disk_eq.
  destruct (process_zip (company_facts_response r) CompanyFactsData (fs e0))
    as [res1 d1] eqn:Hz1.
  apply process_zip_frame in Hz1 as (Hsj1 & Htj1 & Hcj1 & Hsm1 & _ & Hzip1 & Hoth1).
  destruct (Hoth1 SubmissionsData) as [_ Hsub1]; [done|]. simpl in Hsub1.
  simpl.
  assert ((summary_json d1 = summary_json (fs e) ∧
           summaries d1 = summaries (fs e) ∧ summary_json (fs e) = None) ∨
          (∃ v ts,
             summary_json (fs e) = Some (Doc v) ∧
             getitem v "build_timestamp" = Return ts ∧
             summary_json d1 = None ∧
             rename_into (archived_name py_str ts) (Doc v) (summaries (fs e))
             = Return (summaries d1))) as Hrot1.
  { rewrite Hsj1, Hsm1. destruct Hrot0 as [(? & ? & ?)|?]; [left|right]; eauto. }
  destruct res1 as [[]|x1].
  2:{ intros [= <- <-]. simpl. repeat split.
      all: first [ done | congruence | intros; congruence
                 | destruct Hrot1 as [(? & ? & ?)|?]; [left|right]; done ]. }
  rewrite on_disk_eq. simpl.
  destruct (process_zip (submissions_response r) SubmissionsData d1)
    as [res2 d2] eqn:Hz2.
  pose proof (process_zip_populated (submissions_response r) SubmissionsData d1)
    as Hpop.
  rewrite Hz2 in Hpop. simpl in Hpop.
  apply process_zip_frame in Hz2 as (Hsj2 & Htj2 & Hcj2 & Hsm2 & _ & Hzip2 & Hoth2).
  destruct (Hoth2 CompanyFactsData) as [Hcz2 _]; [done|]. simpl in Hcz2.
  simpl.
  assert ((summary_json d2 = summary_json (fs e) ∧
           summaries d2 = summaries (fs e) ∧ summary_json (fs e) = None) ∨
          (∃ v ts,
             summary_json (fs e) = Some (Doc v) ∧
             getitem v "build_timestamp" = Return ts ∧
             summary_json d2 = None ∧
             rename_into (archived_name py_str ts) (Doc v) (summaries (fs e))
             = Return (summaries d2))) as Hrot2.
  { rewrite Hsj2, Hsm2. done. }
  assert (submissions (fs e) ≠ [] → submissions d2 = submissions (fs e))
    as Hsub2.
  { intros Hne. rewrite Hpop; congruence. }
  intros [= <- <-]. simpl. repeat split.
  all: first [ done | congruence | intros; congruence
             | destruct Hrot2 as [(? & ? & ?)|?]; [left|right]; done
             | idtac ].
  - rewrite Hcz2. by apply Hzip1.
  - by apply Hzip2.
Qed.

(** The same up to the end of the scan, which leaves the disk alone. *)
Lemma prepare_spec n r e res e' :
  prepare py_str n r e = (res, e') →
  path e' = path e ∧
  ticker_json (fs e') = ticker_json (fs e) ∧
  company_json (fs e') = company_json (fs e) ∧
  (res = Return tt →
   is_Some (company_facts_zip (fs e')) ∧ is_Some (submissions_zip (fs e'))) ∧
  (submissions (fs e) ≠ [] → submissions (fs e') = submissions (fs e)) ∧
  ((summary_json (fs e') = summary_json (fs e) ∧
    summaries (fs e') = summaries (fs e) ∧
    (res = Return tt → summary_json (fs e) = None)) ∨
   (∃ v ts,
      summary_json (fs e) = Some (Doc v) ∧
      getitem v "build_timestamp" = Return ts ∧
      summary_json (fs e') = None ∧
      rename_into (archived_name py_str ts) (Doc v) (summaries (fs e))
      = Return (summaries (fs e')))).
Proof.
  unfold prepare, bind.
  destruct (refresh py_str r e) as [res0 e0] eqn:Href.
  apply refresh_spec in Href as (Hp & Ht & Hc & Hz & Hs & Hrot).
  destruct res0 as [[]|x0]; [|intros [= <- <-]; by repeat split].
  destruct (build_index_frame n r e0) as [Hfs Hpath].
  destruct (build_index n r e0) as [res1 e1]. simpl in Hfs, Hpath.
  intros [= <- <-]. rewrite Hfs, Hpath.
  repeat split; try done.
  - by apply Hz.
  - by apply Hz.
  - destruct Hrot as [(? & ? & ?)|?]; [left|right]; eauto.
Qed.
End BuildPhases.

(** *** A failed build *)

(** C4, as stated, fails: the prior summary is renamed before the first
    download, so a build that then fails on the network leaves no
    [summary.json] behind. *)
Lemma failed_build_counterexample :
  let prior := Doc (JObj [("build_timestamp", JStr "2024-01-01T00:00:00")]) in
  let d := Disk (Some prior) (Some (Dumps {[KStr "AAPL" := "0000320193"]}))
             (Some (Dumps {[KStr "Apple Inc." := "0000320193"]})) None None
             [] [] [] 0 in
  let e := Edgar "data" d ∅ ∅ in
  let r := Run "2024-02-01T00:00:00" BadStatus BadStatus id in
  ∃ e',
    build (λ _, "") (λ _, 0) 8 r e = (Raise HTTPError, e') ∧
    summary_json (fs e) = Some prior ∧
    summary_json (fs e') = None ∧
    summaries (fs e')
    = [("summary_2024-01-01T00:00:00.json", File prior)].
Proof.
  intros prior d e r. eexists. split; [reflexivity|]. by repeat split.
Qed.

Section BuildClaims.
Variable py_str : json → string.
Variable index_size : index → Z.

(** The last phase is reached only when everything before it returned,
    and then it returns. *)
Lemma build_raise_prepare n r e x e' :
  build py_str index_size n r e = (Raise x, e') →
  prepare py_str n r e = (Raise x, e').
Proof.
  rewrite build_unfold.
  destruct (prepare py_str n r e) as [[[]|y] mid] eqn:Hprep; [|done].
  apply prepare_spec in Hprep as (_ & _ & _ & Hzips & _).
  destruct Hzips as [Hz1 Hz2]; [done|].
  destruct (persist_spec index_size r mid Hz1 Hz2) as (e'' & s & -> & _).
  done.
Qed.

(** C4, amended. If a build fails, the persisted ticker index and
    company-name index are unchanged on disk, and no new index or
    summary file has been written: they are written only after the
    full scan has succeeded. The prior summary is either still in
    place or, when the failure came after the rotation, already
    renamed into summaries/ under its recorded timestamp, with
    [summary.json] absent. *)
Theorem failed_build_keeps_indices (n : Z) (r : run) (e e' : edgar)
    (x : exn) :
  build py_str index_size n r e = (Raise x, e') →
  ticker_json (fs e') = ticker_json (fs e) ∧
  company_json (fs e') = company_json (fs e) ∧
  ((summary_json (fs e') = summary_json (fs e) ∧
    summaries (fs e') = summaries (fs e)) ∨
   (∃ v ts,
      summary_json (fs e) = Some (Doc v) ∧
      getitem v "build_timestamp" = Return ts ∧
      summary_json (fs e') = None ∧
      dir_lookup (archived_name py_str ts) (summaries (fs e'))
      = Some (File (Doc v)))).
Proof.
  intros Hb. apply build_raise_prepare, prepare_spec in Hb
    as (_ & Ht & Hc & _ & _ & Hrot).
  split; [done|]. split; [done|].
  destruct Hrot as [(Hs & Hm & _) | (v & ts & Hv & Hts & Hnone & Hmv)].
  - by left.
  - right. exists v, ts. repeat split; try done.
    by eapply rename_into_lookup.
Qed.

(** *** Summary rotation *)

Lemma build_return_spec n r e e' :
  build py_str index_size n r e = (Return tt, e') →
  ∃ mid s,
    prepare py_str n r e = (Return tt, mid) ∧
    summary_json (fs e') = Some (Doc s) ∧
    getitem s "build_timestamp" = Return (JStr (now r)) ∧
    summaries (fs e') = summaries (fs mid) ∧
    ticker_json (fs e') = Some (Dumps (ticker_cik_map e')) ∧
    company_json (fs e') = Some (Dumps (company_cik_map e')).
Proof.
  rewrite build_unfold.
  destruct (prepare py_str n r e) as [[[]|y] mid] eqn:Hprep; [|done].
  apply prepare_spec in Hprep as (_ & _ & _ & Hzips & _).
  destruct Hzips as [Hz1 Hz2]; [done|].
  destruct (persist_spec index_size r mid Hz1 Hz2)
    as (e'' & s & -> & Ht & Hc & Hs & Hts & Hm & Htm & Hcm).
  intros [= <-]. exists mid, s. repeat split; try done; congruence.
Qed.

(** C8. When two builds in succession both complete, the second one
    renames the first one's [summary.json] into summaries/ under a
    name that embeds the first build's timestamp, before it writes its
    own; [summary.json] then carries the second build's timestamp.
    Starting from a directory without summary and with summaries/
    empty, summaries/ ends up with exactly that one file. The first
    build treats a summary it finds in the same way. *)
Theorem summary_rotation (n1 n2 : Z) (r1 r2 : run) (e0 e1 e2 : edgar) :
  build py_str index_size n1 r1 e0 = (Return tt, e1) →
  build py_str index_size n2 r2 e1 = (Return tt, e2) →
  ∃ s1 s2 mid,
    summary_json (fs e1) = Some (Doc s1) ∧
    getitem s1 "build_timestamp" = Return (JStr (now r1)) ∧
    prepare py_str n2 r2 e1 = (Return tt, mid) ∧
    summary_json (fs mid) = None ∧
    rename_into ("summary_" +:+ now r1 +:+ ".json") (Doc s1)
      (summaries (fs e1)) = Return (summaries (fs mid)) ∧
    summaries (fs e2) = summaries (fs mid) ∧
    summary_json (fs e2) = Some (Doc s2) ∧
    getitem s2 "build_timestamp" = Return (JStr (now r2)) ∧
    (summary_json (fs e0) = None → summaries (fs e0) = [] →
     summaries (fs e2)
     = [("summary_" +:+ now r1 +:+ ".json", File (Doc s1))]) ∧
    (∀ c, summary_json (fs e0) = Some c →
       ∃ v ts, c = Doc v ∧ getitem v "build_timestamp" = Return ts ∧
               rename_into (archived_name py_str ts) c (summaries (fs e0))
               = Return (summaries (fs e1))).
Proof.
  intros Hb1 Hb2.
  apply build_return_spec in Hb1 as (mid1 & s1 & Hp1 & Hs1 & Hts1 & Hm1 & _).
  apply build_return_spec in Hb2 as (mid2 & s2 & Hp2 & Hs2 & Hts2 & Hm2 & _).
  pose proof Hp1 as Hp1'. pose proof Hp2 as Hp2'.
  apply prepare_spec in Hp1' as (_ & _ & _ & _ & _ & Hrot1).
  apply prepare_spec in Hp2' as (_ & _ & _ & _ & _ & Hrot2).
  destruct Hrot2 as [(_ & _ & Hnone) | (v & ts & Hv & Hts & Hnone & Hmv)];
    [specialize (Hnone eq_refl); congruence|].
  rewrite Hs1 in Hv. injection Hv as <-.
  rewrite Hts1 in Hts. injection Hts as <-.
  change (archived_name py_str (JStr (now r1)))
    with ("summary_" +:+ now r1 +:+ ".json") in Hmv.
  exists s1, s2, mid2. repeat split; try done.
  - intros Hfresh Hempty. rewrite Hm2.
    destruct Hrot1 as [(_ & Hsame & _) | (v & ts & Hv & _)]; [|congruence].
    rewrite Hm1, Hsame, Hempty in Hmv. unfold rename_into in Hmv.
    destruct (contains "/" _); [done|]. simpl in Hmv. by injection Hmv as <-.
  - intros c Hc.
    destruct Hrot1 as [(_ & _ & Hnone1) | (v & ts & Hv & Hts & _ & Hmv1)];
      [specialize (Hnone1 eq_refl); congruence|].
    exists v, ts. rewrite Hc in Hv. injection Hv as ->.
    repeat split; try done. by rewrite Hm1.
Qed.
End BuildClaims.

Lemma failed_build_keeps_indices_witness :
  let prior := Doc (JObj [("build_timestamp", JStr "2024-01-01T00:00:00")]) in
  let d := Disk (Some prior) (Some (Dumps expected_tickers))
             (Some (Dumps expected_companies))
             None None [] [] [] 0 in
  let e := Edgar "data" d ∅ ∅ in
  let r := Run "2024-02-01T00:00:00" (Body facts_archive true) BadStatus id in
  let e' := (build (λ _, "") (λ _, 0) 8 r e).2 in
  ticker_json (fs e') = Some (Dumps expected_tickers) ∧
  company_json (fs e') = Some (Dumps expected_companies) ∧
  ((summary_json (fs e') = summary_json (fs e) ∧
    summaries (fs e') = summaries (fs e)) ∨
   (∃ v ts,
      summary_json (fs e) = Some (Doc v) ∧
      getitem v "build_timestamp" = Return ts ∧
      summary_json (fs e') = None ∧
      dir_lookup (archived_name (λ _, "") ts) (summaries (fs e'))
      = Some (File (Doc v)))).
Proof.
  intros prior d e r e'.
  apply (failed_build_keeps_indices (λ _, "") (λ _, 0) 8 r e e' HTTPError).
  reflexivity.
Defined.

Lemma summary_rotation_witness :
  let r1 := scenario "2024-01-01T00:00:00" id in
  let r2 := scenario "2024-02-01T00:00:00" id in
  let e1 := (build (λ _, "") (λ _, 0) 2 r1 fresh).2 in
  let e2 := (build (λ _, "") (λ _, 0) 2 r2 e1).2 in
  ∃ s1 s2,
    summary_json (fs e1) = Some (Doc s1) ∧
    getitem s1 "build_timestamp" = Return (JStr "2024-01-01T00:00:00") ∧
    summary_json (fs e2) = Some (Doc s2) ∧
    getitem s2 "build_timestamp" = Return (JStr "2024-02-01T00:00:00") ∧
    summaries (fs e2)
    = [("summary_2024-01-01T00:00:00.json", File (Doc s1))].
Proof.
  intros r1 r2 e1 e2.
  destruct (summary_rotation (λ _, "") (λ _, 0) 2 2 r1 r2 fresh e1 e2)
    as (s1 & s2 & mid & Hs1 & Hts1 & _ & _ & _ & _ & Hs2 & Hts2 & Hone & _);
    [vm_compute; reflexivity | vm_compute; reflexivity |].
  exists s1, s2.
  split; [exact Hs1|]. split; [exact Hts1|].
  split; [exact Hs2|]. split; [exact Hts2|].
  exact (Hone eq_refl eq_refl).
Defined.

(** *** An unopenable path *)

Lemma file_names_ext e e' :
  path e' = path e → submissions (fs e') = submissions (fs e) →
  file_names e' = file_names e.
Proof. unfold file_names. by intros -> ->. Qed.

Lemma file_names_populated e p : p ∈ file_names e → submissions (fs e) ≠ [].
Proof.
  unfold file_names. intros Hp Hnil. rewrite Hnil in Hp. simpl in Hp.
  by apply elem_of_nil in Hp.
Qed.

(** One worker that raises makes the scan phase raise, in whatever order
    the futures complete. *)
Lemma build_index_unopenable n r e p :
  fair r → p ∈ file_names e →
  open_in (join (path e) "submissions") (submissions (fs e)) p = None →
  raises (build_index n r e).1.
Proof.
  intros Hfair Hp Hnone. unfold build_index, bind, lift.
  destruct (chunks (file_names e) n) as [parts|x] eqn:Hparts;
    [|by exists x].
  apply chunks_concat in Hparts.
  rewrite <- Hparts in Hp. apply list_elem_of_In, in_concat in Hp
    as (part & Hpart & Hin).
  apply merge_raises with OSError. rewrite (Hfair _).
  apply list_elem_of_fmap. exists part. split.
  - symmetry. apply gather_index_unopenable with p; [|done].
    by apply list_elem_of_In.
  - by apply list_elem_of_In.
Qed.

Section ScanClaims.
Variable py_str : json → string.
Variable index_size : index → Z.

(** C9. The [try] of the worker covers the parsing and the use of the
    record only: when every path opens, [gather_index] returns
    whatever the files hold; a path that cannot be opened makes the
    worker raise [OSError] instead of skipping the file, the scan
    phase raises with it in any completion order, and the whole build
    aborts without writing the index files. *)
Theorem unopenable_path_aborts_scan (n : Z) (r : run) (e : edgar)
    (p : string) :
  let open_file :=
    open_in (join (path e) "submissions") (submissions (fs e)) in
  fair r → p ∈ file_names e → open_file p = None →
  (∀ files, (∀ q, q ∈ files → is_Some (open_file q)) →
            returns (gather_index open_file files)) ∧
  (∀ files, p ∈ files → gather_index open_file files = Raise OSError) ∧
  raises (build_index n r e).1 ∧
  ∃ x e',
    build py_str index_size n r e = (Raise x, e') ∧
    ticker_json (fs e') = ticker_json (fs e) ∧
    company_json (fs e') = company_json (fs e).
Proof.
  intros open_file Hfair Hp Hnone.
  split; [|split; [|split]].
  - intros files Hopen. eexists. by apply gather_index_returns.
  - intros files Hin. by apply gather_index_unopenable with p.
  - by apply build_index_unopenable with p.
  - assert (∃ x e', prepare py_str n r e = (Raise x, e')) as (x & e' & Hprep).
    { unfold prepare, bind.
      destruct (refresh py_str r e) as [[[]|x0] e0] eqn:Href; [|by eauto].
      apply refresh_spec in Href as (Hpath & _ & _ & _ & Hsub & _).
      specialize (Hsub (file_names_populated e p Hp)).
      destruct (build_index_unopenable n r e0 p Hfair) as [x Hx].
      - by rewrite (file_names_ext e e0).
      - by rewrite Hpath, Hsub.
      - destruct (build_index n r e0) as [res e1]. simpl in Hx. subst res.
        by eauto. }
    exists x, e'. rewrite build_unfold, Hprep.
    apply prepare_spec in Hprep as (_ & Ht & Hc & _). done.
Qed.
End ScanClaims.

Lemma unopenable_path_aborts_scan_witness :
  let d := Disk None None None None None []
             [("CIK0000320193.json", File (Doc apple));
              ("CIK0000000007.json", Subdir)] [] 0 in
  let e := Edgar "data" d ∅ ∅ in
  let r := scenario "2024-01-01T00:00:00" id in
  gather_index (open_in "data/submissions" (submissions d))
    ["data/submissions/CIK0000320193.json";
     "data/submissions/CIK0000000007.json"] = Raise OSError ∧
  raises (build_index 2 r e).1 ∧
  ∃ x e', build (λ _, "") (λ _, 0) 2 r e = (Raise x, e').
Proof.
  intros d e r.
  destruct (unopenable_path_aborts_scan (λ _, "") (λ _, 0) 2 r e
              "data/submissions/CIK0000000007.json")
    as (_ & Hworker & Hscan & x & e' & Hbuild & _).
  - intros futures. reflexivity.
  - unfold file_names. simpl. right. left.
  - reflexivity.
  - split; [|split; [exact Hscan | by exists x, e']].
    apply Hworker. right. left.
Defined.

(** *** The end-to-end scenario *)

(** C1. With the default worker count 8 the three-file build does not
    produce the maps: [chunk_size] is [3 // 8 = 0], [range(0, 3, 0)]
    raises [ValueError] before any worker runs, and neither index file
    is written. *)
Theorem three_files_default_workers (py_str : json → string)
    (index_size : index → Z) (ts : string)
    (order : list (result (index * index)) → list (result (index * index))) :
  chunks ["data/submissions/CIK0000320193.json";
          "data/submissions/CIK0001018724.json";
          "data/submissions/CIK0000000003.json"] 8
  = Raise ValueError ∧
  ∃ e',
    build py_str index_size 8 (scenario ts order) fresh = (Raise ValueError, e') ∧
    ticker_json (fs e') = None ∧ company_json (fs e') = None ∧
    ticker_cik_map e' = ∅ ∧ company_cik_map e' = ∅.
Proof.
  split; [reflexivity|]. eexists. split; [reflexivity|]. by repeat split.
Qed.

(** With at most three workers the same build does produce the maps of
    the scenario, in whatever order the futures complete. *)
Lemma merge_permutation_scenario (results done : list (index * index)) e :
  results = [({[KStr "AAPL" := "0000320193"]},
              {[KStr "Apple Inc." := "0000320193"]});
             ({[KStr "AMZN" := "0001018724"; KStr "AMZN.B" := "0001018724"]},
              {[KStr "Amazon.com Inc." := "0001018724"]});
             (∅, ∅)] ∨
  results = [(expected_tickers, expected_companies)] →
  results ≡ₚ done →
  ticker_cik_map e = ∅ → company_cik_map e = ∅ →
  merge (map Return done) e
  = (Return tt, Edgar (path e) (fs e) expected_tickers expected_companies).
Proof.
  intros Hres Hperm Ht Hc. rewrite merge_returns, Ht, Hc.
  apply permutations_Permutation in Hperm.
  destruct Hres as [-> | ->];
    repeat (apply elem_of_cons in Hperm as [->|Hperm];
            [do 2 f_equal; compute_done|]);
    by apply elem_of_nil in Hperm.
Qed.

Lemma build_index_eq n r e parts :
  chunks (file_names e) n = Return parts →
  build_index n r e
  = merge (as_completed r
             (map (gather_index
                     (open_in (join (path e) "submissions")
                        (submissions (fs e)))) parts)) e.
Proof. intros Hparts. unfold build_index, bind, lift. by rewrite Hparts. Qed.

Lemma three_files_few_workers (py_str : json → string)
    (index_size : index → Z) (ts : string)
    (order : list (result (index * index)) → list (result (index * index)))
    (n : Z) :
  1 ≤ n ≤ 3 → fair (scenario ts order) →
  ∃ e',
    build py_str index_size n (scenario ts order) fresh = (Return tt, e') ∧
    ticker_json (fs e') = Some (Dumps expected_tickers) ∧
    company_json (fs e') = Some (Dumps expected_companies).
Proof.
  intros Hn Hfair.
  set (staged :=
         Edgar "data"
           (Disk None None None (Some facts_archive) (Some submissions_archive)
              (extractall (default [] (zip_entries facts_archive)) [])
              [("CIK0000320193.json", File (Doc apple));
               ("CIK0001018724.json", File (Doc amazon));
               ("CIK0000000003.json", File Junk)] [] 0) ∅ ∅).
  assert (refresh py_str (scenario ts order) fresh = (Return tt, staged))
    as Href by reflexivity.
  assert (∃ parts results,
            chunks (file_names staged) n = Return parts ∧
            map (gather_index (open_in (join (path staged) "submissions")
                                 (submissions (fs staged)))) parts
            = map Return results ∧
            (results = [({[KStr "AAPL" := "0000320193"]},
                         {[KStr "Apple Inc." := "0000320193"]});
                        ({[KStr "AMZN" := "0001018724";
                           KStr "AMZN.B" := "0001018724"]},
                         {[KStr "Amazon.com Inc." := "0001018724"]});
                        (∅, ∅)] ∨
             results = [(expected_tickers, expected_companies)]))
    as (parts & results & Hparts & Hfut & Hres).
  { assert (n = 1 ∨ n = 2 ∨ n = 3) as [-> | [-> | ->]] by lia.
    - eexists _, _. split; [reflexivity|]. split; [|by right]. compute_done.
    - eexists _, _. split; [reflexivity|]. split; [|by left]. compute_done.
    - eexists _, _. split; [reflexivity|]. split; [|by left]. compute_done. }
  pose proof (Hfair (map (gather_index
                            (open_in (join (path staged) "submissions")
                               (submissions (fs staged)))) parts)) as Hperm.
  rewrite Hfut in Hperm.
  apply Permutation_map_inv in Hperm as (done & Hdone & Hperm).
  assert (prepare py_str n (scenario ts order) fresh
          = (Return tt,
             Edgar (path staged) (fs staged) expected_tickers expected_companies))
    as Hprep.
  { unfold prepare, bind. rewrite Href, (build_index_eq _ _ _ _ Hparts).
    rewrite Hfut, Hdone. by apply merge_permutation_scenario with results. }
  rewrite build_unfold, Hprep.
  destruct (persist_spec index_size (scenario ts order)
              (Edgar (path staged) (fs staged) expected_tickers
                 expected_companies))
    as (e' & s & Hpersist & Htj & Hcj & _); [by eexists | by eexists |].
  exists e'. by repeat split.
Qed.

(** * Further properties of the worker *)

Lemma update_empty_r (d : index) : update d ∅ = d.
Proof. unfold update. apply (left_id_L ∅ (∪)). Qed.

Lemma update_empty_l (t : index) : update ∅ t = t.
Proof. unfold update. apply (right_id_L ∅ (∪)). Qed.

Lemma update_assoc (d t t' : index) :
  update (update d t) t' = update d (update t t').
Proof. unfold update. apply (assoc_L (∪)). Qed.

(** What a file contributes does not depend on what the maps hold. *)
Lemma index_submission_additive file w :
  (index_submission file w).2
  = Worker (update (ticker_map w)
              (ticker_map (index_submission file (Worker ∅ ∅)).2))
           (update (company_map w)
              (company_map (index_submission file (Worker ∅ ∅)).2)).
Proof.
  destruct w as [tm cm].
  assert (Worker tm cm = Worker (update tm ∅) (update cm ∅)) as Hskip
    by by rewrite !update_empty_r.
  destruct file as [v|]; [|exact Hskip].
  unfold index_submission, set_company, update_tickers, bind, lift. simpl.
  destruct (getitem v "cik") as [x|]; [|exact Hskip].
  destruct (normalize_cik x) as [id|]; [|exact Hskip].
  destruct (getitem v "name") as [nm|]; [|exact Hskip].
  destruct (py_key nm) as [k|]; [|exact Hskip]. simpl.
  assert (<[k:=id]> cm = update cm (<[k:=id]> ∅)) as Hc.
  { unfold update. by rewrite <- insert_union_l, (left_id_L ∅ (∪)). }
  destruct (getitem v "tickers") as [ts|];
    [|simpl; by rewrite update_empty_r, Hc].
  destruct (py_iter ts) as [elems|]; [|simpl; by rewrite update_empty_r, Hc].
  destruct (comprehension elems id ∅) as [t|];
    simpl; by rewrite ?update_empty_r, ?update_empty_l, Hc.
Qed.

Lemma scan_additive open_file files w :
  (∀ q, q ∈ files → is_Some (open_file q)) →
  (scan open_file files w).2
  = Worker (update (ticker_map w)
              (ticker_map (scan open_file files (Worker ∅ ∅)).2))
           (update (company_map w)
              (company_map (scan open_file files (Worker ∅ ∅)).2)).
Proof.
  revert w. induction files as [|p files IH]; intros w Hopen.
  - destruct w. simpl. by rewrite !update_empty_r.
  - rewrite !scan_cons. destruct (Hopen p ltac:(left)) as [c ->].
    assert (∀ q, q ∈ files → is_Some (open_file q)) as Hrest
      by (intros q Hq; apply Hopen; by right).
    rewrite (IH (index_submission c w).2 Hrest).
    rewrite (IH (index_submission c (Worker ∅ ∅)).2 Hrest).
    rewrite (index_submission_additive c w). simpl.
    by rewrite !update_assoc.
Qed.

Lemma gather_index_openable open_file files tc :
  gather_index open_file files = Return tc →
  ∀ q, q ∈ files → is_Some (open_file q).
Proof.
  intros Hg q Hq. destruct (open_file q) eqn:Hq'; [by eexists|].
  by rewrite (gather_index_unopenable _ _ q Hq Hq') in Hg.
Qed.

Lemma scan_app_additive open_file files files' :
  (∀ q, q ∈ files → is_Some (open_file q)) →
  (∀ q, q ∈ files' → is_Some (open_file q)) →
  (scan open_file (files ++ files') (Worker ∅ ∅)).2
  = Worker (update (ticker_map (scan open_file files (Worker ∅ ∅)).2)
              (ticker_map (scan open_file files' (Worker ∅ ∅)).2))
           (update (company_map (scan open_file files (Worker ∅ ∅)).2)
              (company_map (scan open_file files' (Worker ∅ ∅)).2)).
Proof. intros Hopen Hopen'. by rewrite scan_app, scan_additive. Qed.

(** X1. Scanning a list in two pieces and merging the second result
    into the first with [update] gives what one scan of the whole list
    gives: cutting the list does not change the result when the pieces
    are merged in list order. *)
Theorem gather_index_app (open_file : string → option content)
    (files files' : list string) (t c t' c' : index) :
  gather_index open_file files = Return (t, c) →
  gather_index open_file files' = Return (t', c') →
  gather_index open_file (files ++ files')%list
  = Return (update t t', update c c').
Proof.
  intros Hg Hg'.
  pose proof (gather_index_openable _ _ _ Hg) as Hopen.
  pose proof (gather_index_openable _ _ _ Hg') as Hopen'.
  rewrite gather_index_returns in Hg, Hg' by done.
  injection Hg as Ht Hc. injection Hg' as Ht' Hc'.
  rewrite gather_index_returns
    by (intros q [Hq|Hq]%elem_of_app; eauto).
  rewrite scan_app_additive by done. simpl. congruence.
Qed.

Lemma gather_index_app_witness :
  let open_file := λ p, if decide (p = "a.json") then Some (Doc apple)
                        else if decide (p = "b.json") then Some (Doc amazon)
                        else None in
  gather_index open_file (["a.json"] ++ ["b.json"])%list
  = Return (update {[KStr "AAPL" := "0000320193"]}
              {[KStr "AMZN" := "0001018724"; KStr "AMZN.B" := "0001018724"]},
            update {[KStr "Apple Inc." := "0000320193"]}
              {[KStr "Amazon.com Inc." := "0001018724"]}).
Proof.
  intros open_file.
  apply (gather_index_app open_file ["a.json"] ["b.json"]); reflexivity.
Defined.

(** X2. Every identifier in the maps a worker returns is the padded cik
    of a record of one of its input files (and so has at least 10
    characters): nothing is stored that no file supplied. *)
Theorem stored_identifier_provenance (open_file : string → option content)
    (files : list string) (t c : index) (k : pykey) (id : string) :
  gather_index open_file files = Return (t, c) →
  t !! k = Some id ∨ c !! k = Some id →
  ∃ p v s,
    p ∈ files ∧ open_file p = Some (Doc v) ∧
    getitem v "cik" = Return (JStr s) ∧ id = pad_cik s ∧
    (10 ≤ String.length id)%nat.
Proof.
  intros Hg Hid. unfold gather_index in Hg.
  pose proof (scan_invariant open_file
                (stored (λ id, ∃ p v s,
                           p ∈ files ∧ open_file p = Some (Doc v) ∧
                           getitem v "cik" = Return (JStr s) ∧
                           id = pad_cik s ∧ (10 ≤ String.length id)%nat))
                files (Worker ∅ ∅)) as Hinv.
  destruct (scan open_file files (Worker ∅ ∅)) as [[[]|] w]; [|done].
  injection Hg as <- <-. destruct Hinv as [Ht Hc].
  - intros q f w' Hq Hf. apply index_submission_stored.
    intros v s -> Hs. exists q, v, s. repeat split; try done.
    rewrite length_pad_cik. lia.
  - split; apply map_Forall_empty.
  - destruct Hid as [Hid|Hid]; [by apply (Ht k) | by apply (Hc k)].
Qed.

Lemma stored_identifier_provenance_witness :
  ∃ p v s,
    p ∈ ["CIK0000320193.json"] ∧
    (if decide (p = "CIK0000320193.json") then Some (Doc apple) else None)
    = Some (Doc v) ∧
    getitem v "cik" = Return (JStr s) ∧ "0000320193" = pad_cik s ∧
    (10 ≤ String.length "0000320193")%nat.
Proof.
  apply (stored_identifier_provenance
           (λ p, if decide (p = "CIK0000320193.json")
                 then Some (Doc apple) else None)
           ["CIK0000320193.json"]
           {[KStr "AAPL" := "0000320193"]}
           {[KStr "Apple Inc." := "0000320193"]} (KStr "AAPL")).
  - reflexivity.
  - left. reflexivity.
Defined.

Lemma comprehension_unhashable elems cik acc bad x :
  bad ∈ elems → py_key bad = Raise x →
  comprehension elems cik acc = Raise TypeError.
Proof.
  revert acc. induction elems as [|e elems IH]; intros acc Hin Hbad.
  - by apply elem_of_nil in Hin.
  - simpl. destruct (py_key e) as [k|y] eqn:Hk; simpl.
    + apply elem_of_cons in Hin as [->|Hin]; [congruence|]. by apply IH.
    + destruct e; simpl in Hk; congruence.
Qed.

(** X3. The [try] is not atomic. A record with a string cik and a
    hashable name whose tickers are missing, cannot be iterated, or hold
    an unhashable element has already written its name entry when the
    exception is swallowed; the ticker map gets none of its tickers, not
    even the hashable ones. *)
Theorem record_with_bad_tickers (v : json) (cik : string) (name : json)
    (k : pykey) (w : worker) :
  getitem v "cik" = Return (JStr cik) →
  getitem v "name" = Return name →
  py_key name = Return k →
  (raises (getitem v "tickers") ∨
   (∃ ts, getitem v "tickers" = Return ts ∧ raises (py_iter ts)) ∨
   (∃ elems bad, getitem v "tickers" = Return (JArr elems) ∧
                 bad ∈ elems ∧ raises (py_key bad))) →
  (index_submission (Doc v) w).2
  = Worker (ticker_map w) (<[k := pad_cik cik]> (company_map w)).
Proof.
  intros Hcik Hname Hk Hbad.
  unfold index_submission, set_company, update_tickers, bind, lift. simpl.
  rewrite Hcik, normalize_cik_str, Hname. simpl. rewrite Hk. simpl.
  destruct Hbad as [[x Hx] | [(ts & Hts & [x Hx])
                             | (elems & bad & Hts & Hin & [x Hx])]].
  - by rewrite Hx.
  - by rewrite Hts, Hx.
  - rewrite Hts. simpl.
    by rewrite (comprehension_unhashable elems _ _ bad x Hin Hx).
Qed.

Lemma record_with_bad_tickers_witness :
  (index_submission
     (Doc (JObj [("cik", JStr "2"); ("name", JStr "Acme");
                 ("tickers", JArr [JStr "ACM"; JArr []])]))
     (Worker ∅ ∅)).2
  = Worker ∅ (<[KStr "Acme" := pad_cik "2"]> ∅).
Proof.
  apply (record_with_bad_tickers
           (JObj [("cik", JStr "2"); ("name", JStr "Acme");
                  ("tickers", JArr [JStr "ACM"; JArr []])])
           "2" (JStr "Acme") (KStr "Acme") (Worker ∅ ∅));
    [reflexivity | reflexivity | reflexivity |].
  right. right. exists [JStr "ACM"; JArr []], (JArr []).
  split; [reflexivity|]. split; [right; left|]. by exists TypeError.
Defined.

(** X4. A record is indexed only if its cik is a string: when the cik
    is missing or is anything else (a number, as in the company-facts
    files), the file leaves both maps exactly as they were. *)
Theorem record_without_string_cik (v : json) (w : worker) :
  (∀ s, getitem v "cik" ≠ Return (JStr s)) →
  (index_submission (Doc v) w).2 = w.
Proof.
  intros Hcik.
  destruct (index_submission_cases (Doc v) w)
    as [-> | (v' & s & k & [= <-] & Hs & _)]; [done|].
  by destruct (Hcik s).
Qed.

Lemma record_without_string_cik_witness :
  (index_submission
     (Doc (JObj [("cik", JInt 320193); ("name", JStr "Apple Inc.");
                 ("tickers", JArr [JStr "AAPL"])]))
     (Worker ∅ ∅)).2
  = Worker ∅ ∅.
Proof.
  apply (record_without_string_cik
           (JObj [("cik", JInt 320193); ("name", JStr "Apple Inc.");
                  ("tickers", JArr [JStr "AAPL"])]) (Worker ∅ ∅)).
  intros s. discriminate.
Defined.

(** * Further properties of the coordinator *)

(** A run is given by its outcome and the state it leaves. *)
Lemma run_eq {A S} (p : result A * S) (a : result A) :
  p.1 = a → p = (a, p.2).
Proof. intros <-. by destruct p. Qed.

(** ** Chunking and merging (lines 47-53) *)

(** X5. [chunks] returns exactly when [1 <= n <= len(file_names)]. It
    raises [ZeroDivisionError] exactly for [n = 0] and [ValueError]
    exactly for a negative [n] or a list shorter than [n] - so an empty
    list fails for every [n]. *)
Theorem chunks_outcome (files : list string) (n : Z) :
  (returns (chunks files n) ↔ 1 ≤ n ≤ Z.of_nat (length files)) ∧
  (chunks files n = Raise ZeroDivisionError ↔ n = 0) ∧
  (chunks files n = Raise ValueError ↔
   n < 0 ∨ Z.of_nat (length files) < n) ∧
  (files = [] → raises (chunks files n)).
Proof.
  assert (∀ x, ¬ returns (Raise x : result (list (list string)))) as Hnot
    by (intros x [? ?]; done).
  assert (n = 0 ∨ n < 0 ∨ (0 < n ∧ Z.of_nat (length files) < n) ∨
          1 ≤ n ≤ Z.of_nat (length files)) as Hcases by lia.
  destruct Hcases as [-> | [Hneg | [[Hpos Hshort] | Hok]]].
  - assert (chunks files 0 = Raise ZeroDivisionError) as -> by done.
    repeat split; intros; try done; try lia; try (by eexists);
      try (by destruct (Hnot ZeroDivisionError)).
  - assert (chunks files n = Raise ValueError) as ->.
    { unfold chunks. repeat case_decide; try done; lia. }
    repeat split; intros; try done; try lia; try (by eexists); eauto;
      try (by destruct (Hnot ValueError)).
  - assert (chunks files n = Raise ValueError) as ->.
    { unfold chunks. rewrite Z.div_small by lia.
      repeat case_decide; try done; lia. }
    repeat split; intros; try done; try lia; try (by eexists); eauto;
      try (by destruct (Hnot ValueError)).
  - rewrite chunks_eq by lia.
    repeat split; intros; try done; try lia; try (by eexists).
    subst files. simpl in Hok. lia.
Qed.

Lemma foldl_update_shift {A} (f : A → index) (m : index) (l : list A) :
  foldl (λ m x, update m (f x)) m l
  = update m (foldl (λ m x, update m (f x)) ∅ l).
Proof.
  revert m. induction l as [|x l IH]; intros m; simpl.
  - by rewrite update_empty_r.
  - rewrite (IH (update m (f x))), (IH (update ∅ (f x))).
    by rewrite update_empty_l, update_assoc.
Qed.

Lemma dom_foldl_update {A} (f : A → index) (m : index) (l : list A) :
  dom (foldl (λ m x, update m (f x)) m l)
  = dom m ∪ ⋃ ((λ x, dom (f x)) <$> l).
Proof.
  revert m. induction l as [|x l IH]; intros m; simpl.
  - by rewrite (right_id_L ∅ (∪)).
  - rewrite IH. unfold update. rewrite dom_union_L.
    by rewrite (comm_L (∪) (dom (f x))), (assoc_L (∪)).
Qed.

Lemma map_Return_inj {A} (l l' : list A) :
  map Return l = map Return l' → l = l'.
Proof.
  revert l'. induction l as [|x l IH]; intros [|x' l']; try done.
  simpl. intros [= -> Hl]. f_equal. by apply IH.
Qed.

(** A merge that returns has seen returned futures only. *)
Lemma merge_return_inv completed e e' :
  merge completed e = (Return tt, e') →
  ∃ finished, completed = map Return finished.
Proof.
  revert e. induction completed as [|[[t c]|x] completed IH]; intros e.
  - by exists [].
  - simpl. unfold bind, merge_future, lift. simpl.
    intros (finished & ->)%IH. by exists ((t, c) :: finished).
  - done.
Qed.

(** What a scan phase that returns has done: every worker returned and
    the results were merged in the completion order. *)
Lemma build_index_return n r e e' :
  fair r → build_index n r e = (Return tt, e') →
  ∃ parts results finished,
    chunks (file_names e) n = Return parts ∧
    map (gather_index (open_in (join (path e) "submissions")
                         (submissions (fs e)))) parts
    = map Return results ∧
    results ≡ₚ finished ∧
    e' = Edgar (path e) (fs e)
           (foldl (λ m tc, update m tc.1) (ticker_cik_map e) finished)
           (foldl (λ m tc, update m tc.2) (company_cik_map e) finished).
Proof.
  intros Hfair. unfold build_index, bind, lift.
  destruct (chunks (file_names e) n) as [parts|] eqn:Hparts; [|done].
  set (futures := map _ parts). intros Hm.
  destruct (merge_return_inv _ _ _ Hm) as (finished & Hdone).
  pose proof (Hfair futures) as Hperm. rewrite Hdone in Hperm.
  symmetry in Hperm. apply Permutation_map_inv in Hperm
    as (results & Hres & Hperm).
  rewrite Hdone, merge_returns in Hm. injection Hm as <-.
  exists parts, results, finished. by repeat split.
Qed.

(** The binding of a key after a sequence of [update] calls. *)
Lemma lookup_foldl_update_None {A} (f : A → index) (m : index) (l : list A) k :
  (∀ x, x ∈ l → f x !! k = None) →
  foldl (λ m x, update m (f x)) m l !! k = m !! k.
Proof.
  revert m. induction l as [|x l IH]; intros m Hnone; [done|].
  simpl. rewrite IH by (intros y Hy; apply Hnone; by right).
  unfold update. apply lookup_union_r, Hnone. by left.
Qed.

Lemma lookup_foldl_update_Some {A} (f : A → index) (m : index) (l : list A)
    k v :
  (∀ x, x ∈ l → f x !! k = None ∨ f x !! k = Some v) →
  m !! k = Some v ∨ (∃ x, x ∈ l ∧ f x !! k = Some v) →
  foldl (λ m x, update m (f x)) m l !! k = Some v.
Proof.
  revert m. induction l as [|x l IH]; intros m Hall Hsome.
  - destruct Hsome as [? | (x & Hx & _)]; [done|]. by apply elem_of_nil in Hx.
  - simpl. apply IH; [intros y Hy; apply Hall; by right|].
    unfold update. destruct (Hall x ltac:(left)) as [Hx|Hx].
    + rewrite (lookup_union_r _ _ _ Hx).
      destruct Hsome as [? | (y & [-> | Hy]%elem_of_cons & Hv)];
        [by left | congruence | right; eauto].
    + left. by apply lookup_union_Some_l.
Qed.

(** When the maps that hold a key agree on its value, the order of the
    [update] calls does not matter for that key. *)
Lemma lookup_foldl_update_agree {A} (f : A → index) (m : index)
    (l l' : list A) k :
  l ≡ₚ l' →
  (∀ x y, x ∈ l → y ∈ l → is_Some (f x !! k) → is_Some (f y !! k) →
          f x !! k = f y !! k) →
  foldl (λ m x, update m (f x)) m l !! k
  = foldl (λ m x, update m (f x)) m l' !! k.
Proof.
  intros Hperm Hagree.
  destruct (decide (Exists (λ x, is_Some (f x !! k)) l)) as [Hex|Hno].
  - apply Exists_exists in Hex as (x & Hx & [v Hv]).
    assert (∀ y, y ∈ l → f y !! k = None ∨ f y !! k = Some v) as Hall.
    { intros y Hy. destruct (f y !! k) as [u|] eqn:Hu; [|by left].
      right. rewrite <- Hv, <- Hu. apply Hagree; try done;
        rewrite ?Hu, ?Hv; by eexists. }
    rewrite (lookup_foldl_update_Some f m l k v Hall)
      by (right; by exists x).
    symmetry. apply lookup_foldl_update_Some.
    + intros y Hy. apply Hall. by rewrite Hperm.
    + right. exists x. by rewrite <- Hperm.
  - assert (∀ y, y ∈ l → f y !! k = None) as Hall.
    { intros y Hy. destruct (f y !! k) as [u|] eqn:Hu; [|done].
      destruct Hno. apply Exists_exists. exists y. rewrite Hu. eauto. }
    rewrite !lookup_foldl_update_None; try done.
    intros y Hy. apply Hall. by rewrite Hperm.
Qed.

(** X6. For a fixed directory and worker count, two scan phases that
    return under different completion orders leave the same set of keys
    in each in-memory map. A key on whose identifier the chunk results
    that hold it agree - in particular a key held by one chunk result
    only - is bound to the same identifier under both orders: only a key
    that several chunks bind to different identifiers can depend on the
    order. *)
Theorem merged_keys_order_independent (n : Z) (r r' : run) (e e1 e2 : edgar) :
  fair r → fair r' →
  build_index n r e = (Return tt, e1) →
  build_index n r' e = (Return tt, e2) →
  dom (ticker_cik_map e1) = dom (ticker_cik_map e2) ∧
  dom (company_cik_map e1) = dom (company_cik_map e2) ∧
  ∀ parts results,
    chunks (file_names e) n = Return parts →
    map (gather_index (open_in (join (path e) "submissions")
                         (submissions (fs e)))) parts
    = map Return results →
    ∀ k,
      ((∀ tc tc', tc ∈ results → tc' ∈ results →
          is_Some (tc.1 !! k) → is_Some (tc'.1 !! k) →
          tc.1 !! k = tc'.1 !! k) →
       ticker_cik_map e1 !! k = ticker_cik_map e2 !! k) ∧
      ((∀ tc tc', tc ∈ results → tc' ∈ results →
          is_Some (tc.2 !! k) → is_Some (tc'.2 !! k) →
          tc.2 !! k = tc'.2 !! k) →
       company_cik_map e1 !! k = company_cik_map e2 !! k).
Proof.
  intros Hfair Hfair' H1 H2.
  apply build_index_return in H1
    as (parts & results & finished & Hparts & Hfut & Hperm & ->); [|done].
  apply build_index_return in H2
    as (parts' & results' & finished' & Hparts' & Hfut' & Hperm' & ->); [|done].
  rewrite Hparts in Hparts'. injection Hparts' as <-.
  rewrite Hfut in Hfut'.
  apply map_Return_inj in Hfut' as <-.
  simpl. rewrite !dom_foldl_update.
  assert (finished ≡ₚ finished') as Hdd by (by rewrite <- Hperm).
  split; [by rewrite Hdd|]. split; [by rewrite Hdd|].
  intros parts0 results0 Hparts0 Hfut0 k.
  rewrite Hparts in Hparts0. injection Hparts0 as <-.
  rewrite Hfut in Hfut0. apply map_Return_inj in Hfut0 as <-.
  split; intros Hagree.
  - apply (lookup_foldl_update_agree fst); [done|].
    intros x y Hx Hy. apply Hagree; by rewrite Hperm.
  - apply (lookup_foldl_update_agree snd); [done|].
    intros x y Hx Hy. apply Hagree; by rewrite Hperm.
Qed.

Lemma merged_keys_order_independent_witness :
  let d := Disk None None None None None []
             [("CIK0000320193.json", File (Doc apple));
              ("CIK0001018724.json", File (Doc amazon))] [] 0 in
  let e := Edgar "data" d ∅ ∅ in
  let e1 := (build_index 2 (scenario "t" id) e).2 in
  let e2 := (build_index 2 (scenario "t" reverse) e).2 in
  dom (ticker_cik_map e1) = dom (ticker_cik_map e2) ∧
  dom (company_cik_map e1) = dom (company_cik_map e2) ∧
  ticker_cik_map e1 !! KStr "AAPL" = ticker_cik_map e2 !! KStr "AAPL" ∧
  company_cik_map e1 !! KStr "Apple Inc."
  = company_cik_map e2 !! KStr "Apple Inc.".
Proof.
  intros d e e1 e2.
  destruct (merged_keys_order_independent 2 (scenario "t" id)
              (scenario "t" reverse) e e1 e2)
    as (Ht & Hc & Hvalues).
  - intros futures. reflexivity.
  - intros futures. apply reverse_Permutation.
  - subst e1. apply run_eq. compute_done.
  - subst e2. apply run_eq. compute_done.
  - split; [exact Ht|]. split; [exact Hc|].
    pose (parts := [["data/submissions/CIK0000320193.json"];
                    ["data/submissions/CIK0001018724.json"]]).
    pose (results := [(({[KStr "AAPL" := "0000320193"]} : index),
                       ({[KStr "Apple Inc." := "0000320193"]} : index));
                      ({[KStr "AMZN" := "0001018724";
                         KStr "AMZN.B" := "0001018724"]},
                       {[KStr "Amazon.com Inc." := "0001018724"]})]).
    assert (∀ tc tc', tc ∈ results → tc' ∈ results →
              (is_Some (tc.1 !! KStr "AAPL") →
               is_Some (tc'.1 !! KStr "AAPL") →
               tc.1 !! KStr "AAPL" = tc'.1 !! KStr "AAPL") ∧
              (is_Some (tc.2 !! KStr "Apple Inc.") →
               is_Some (tc'.2 !! KStr "Apple Inc.") →
               tc.2 !! KStr "Apple Inc." = tc'.2 !! KStr "Apple Inc."))
      as Hagree.
    { intros tc tc' Htc Htc'.
      repeat (apply elem_of_cons in Htc as [-> | Htc]);
        try (by apply elem_of_nil in Htc);
        repeat (apply elem_of_cons in Htc' as [-> | Htc']);
        try (by apply elem_of_nil in Htc');
        split; intros [? Hone] [? Htwo]; try done;
        by vm_compute in Hone, Htwo. }
    assert (chunks (file_names e) 2 = Return parts) as Hparts
      by compute_done.
    assert (map (gather_index (open_in (join (path e) "submissions")
                                 (submissions (fs e)))) parts
            = map Return results) as Hresults by compute_done.
    split.
    + apply (Hvalues parts results Hparts Hresults (KStr "AAPL")).
      intros tc tc' Htc Htc'. by apply Hagree.
    + apply (Hvalues parts results Hparts Hresults (KStr "Apple Inc.")).
      intros tc tc' Htc Htc'. by apply Hagree.
Defined.

Lemma gather_index_concat open_file (parts : list (list string))
    (results : list (index * index)) :
  map (gather_index open_file) parts = map Return results →
  gather_index open_file (concat parts)
  = Return (foldl (λ m tc, update m tc.1) ∅ results,
            foldl (λ m tc, update m tc.2) ∅ results).
Proof.
  revert results. induction parts as [|part parts IH]; intros [|[t c] results];
    try done.
  simpl. intros [= Hpart Hparts]. specialize (IH _ Hparts).
  pose proof (gather_index_openable _ _ _ Hpart) as Hopen.
  pose proof (gather_index_openable _ _ _ IH) as Hopen'.
  rewrite gather_index_returns in Hpart, IH by done.
  injection Hpart as Ht Hc. injection IH as Ht' Hc'.
  rewrite gather_index_returns
    by (intros q [Hq|Hq]%elem_of_app; eauto).
  rewrite scan_app_additive by done. simpl. rewrite Ht, Hc, Ht', Hc'.
  rewrite (foldl_update_shift fst (update ∅ t)),
          (foldl_update_shift snd (update ∅ c)).
  by rewrite !update_empty_l.
Qed.

Lemma gather_index_parts open_file (parts : list (list string)) t c :
  gather_index open_file (concat parts) = Return (t, c) →
  ∃ results, map (gather_index open_file) parts = map Return results.
Proof.
  intros Hg. pose proof (gather_index_openable _ _ _ Hg) as Hopen.
  clear Hg. induction parts as [|part parts IH]; [by exists []|].
  destruct IH as [results Hres].
  { intros q Hq. apply Hopen. simpl. apply elem_of_app. by right. }
  eexists (_ :: results). simpl. rewrite Hres. f_equal.
  apply gather_index_returns. intros q Hq. apply Hopen. simpl.
  apply elem_of_app. by left.
Qed.

(** X7. When the futures complete in the order they were submitted, the
    chunked scan phase gives exactly what one sequential scan of the
    whole file list gives, merged into the maps held before. *)
Theorem in_order_scan_is_sequential (n : Z) (r : run) (e : edgar)
    (t c : index) :
  (∀ futures, as_completed r futures = futures) →
  returns (chunks (file_names e) n) →
  gather_index (open_in (join (path e) "submissions") (submissions (fs e)))
    (file_names e) = Return (t, c) →
  build_index n r e
  = (Return tt,
     Edgar (path e) (fs e) (update (ticker_cik_map e) t)
       (update (company_cik_map e) c)).
Proof.
  intros Horder [parts Hparts] Hg.
  unfold build_index, bind, lift. rewrite Hparts, Horder.
  rewrite <- (chunks_concat _ _ _ Hparts) in Hg.
  destruct (gather_index_parts _ _ _ _ Hg) as [results Hres].
  rewrite (gather_index_concat _ _ _ Hres) in Hg. injection Hg as <- <-.
  rewrite Hres, merge_returns.
  by rewrite (foldl_update_shift fst), (foldl_update_shift snd).
Qed.

Lemma in_order_scan_is_sequential_witness :
  let d := Disk None None None None None []
             [("CIK0000320193.json", File (Doc apple));
              ("CIK0001018724.json", File (Doc amazon));
              ("CIK0000000003.json", File Junk)] [] 0 in
  let e := Edgar "data" d {[KStr "OLD" := "0000000001"]} ∅ in
  build_index 2 (scenario "t" id) e
  = (Return tt,
     Edgar "data" d (update {[KStr "OLD" := "0000000001"]} expected_tickers)
       (update ∅ expected_companies)).
Proof.
  intros d e.
  apply (in_order_scan_is_sequential 2 (scenario "t" id) e).
  - reflexivity.
  - by eexists.
  - compute_done.
Defined.

(** X8. The merge loop stops at the first failed future in completion
    order: the results that completed before it are already in the
    in-memory maps, those after it are dropped, and the exception is the
    failed worker's. *)
Theorem merge_stops_at_failure (merged : list (index * index)) (x : exn)
    (rest : list (result (index * index))) (e : edgar) :
  merge (map Return merged ++ Raise x :: rest)%list e
  = (Raise x,
     Edgar (path e) (fs e)
       (foldl (λ m tc, update m tc.1) (ticker_cik_map e) merged)
       (foldl (λ m tc, update m tc.2) (company_cik_map e) merged)).
Proof.
  revert e. induction merged as [|[t c] merged IH]; intros e.
  - by destruct e.
  - simpl. unfold bind, merge_future, lift. simpl. by rewrite IH.
Qed.

(** ** [process_zip] and the build as a whole *)

Lemma process_zip_return_inv r ds d d' :
  process_zip r ds d = (Return tt, d') →
  ∃ a, r = Body a true ∧ zip_path ds d' = Some a ∧
       (folder_path ds d ≠ [] ∨ is_Some (zip_entries a)).
Proof.
  unfold process_zip, bind, download, extract, lift.
  destruct r as [| |a [|]]; simpl; try done.
  case_decide as Hlen.
  - destruct ds; simpl; destruct (zip_entries a) eqn:Ha; intros [= <-];
      exists a; repeat split; eauto.
  - intros [= <-]. exists a. split; [done|]. split; [by destruct ds|].
    left. rewrite folder_path_write_zip in Hlen. intros Hnil.
    rewrite Hnil in Hlen. simpl in Hlen. lia.
Qed.


Lemma merge_keeps_keys completed e :
  (∀ k, is_Some (ticker_cik_map e !! k) →
        is_Some (ticker_cik_map (merge completed e).2 !! k)) ∧
  (∀ k, is_Some (company_cik_map e !! k) →
        is_Some (company_cik_map (merge completed e).2 !! k)).
Proof.
  revert e. induction completed as [|[[t c]|x] completed IH]; intros e;
    [done | | done].
  simpl. unfold bind, merge_future, lift. simpl.
  destruct (IH (Edgar (path e) (fs e) (update (ticker_cik_map e) t)
                  (update (company_cik_map e) c))) as [Ht Hc].
  split; intros k Hk; [apply Ht | apply Hc]; simpl; unfold update;
    apply lookup_union_is_Some; by right.
Qed.

Lemma build_index_keeps_keys n r e :
  (∀ k, is_Some (ticker_cik_map e !! k) →
        is_Some (ticker_cik_map (build_index n r e).2 !! k)) ∧
  (∀ k, is_Some (company_cik_map e !! k) →
        is_Some (company_cik_map (build_index n r e).2 !! k)).
Proof.
  unfold build_index, bind, lift.
  destruct (chunks (file_names e) n); [|done]. apply merge_keeps_keys.
Qed.

Lemma dir_lookup_write_ne name name' x (d : dir) :
  name ≠ name' → dir_lookup name (dir_write name' x d) = dir_lookup name d.
Proof.
  intros Hne. induction d as [|[n y] d IH]; simpl.
  - by rewrite decide_False.
  - destruct (decide (n = name')) as [->|Hn]; simpl.
    + by rewrite !decide_False.
    + destruct (decide (n = name)); [done | exact IH].
Qed.

Section BuildExtras.
Variable py_str : json → string.
Variable index_size : index → Z.

(** What the phase of lines 39-44 leaves alone, whatever its outcome. *)
Lemma refresh_frame r e :
  path (refresh py_str r e).2 = path e ∧
  ticker_cik_map (refresh py_str r e).2 = ticker_cik_map e ∧
  company_cik_map (refresh py_str r e).2 = company_cik_map e ∧
  other_files (fs (refresh py_str r e).2) = other_files (fs e) ∧
  (company_facts (fs e) ≠ [] →
   company_facts (fs (refresh py_str r e).2) = company_facts (fs e)) ∧
  (submissions (fs e) ≠ [] →
   submissions (fs (refresh py_str r e).2) = submissions (fs e)).
Proof.
  unfold refresh, bind.
  destruct (rotate_summary py_str e) as [res0 e0] eqn:Hrot.
  assert (path e0 = path e ∧ ticker_cik_map e0 = ticker_cik_map e ∧
          company_cik_map e0 = company_cik_map e ∧
          other_files (fs e0) = other_files (fs e) ∧
          company_facts (fs e0) = company_facts (fs e) ∧
          submissions (fs e0) = submissions (fs e))
    as (Hp0 & Ht0 & Hc0 & Ho0 & Hf0 & Hs0).
  { apply rotate_summary_spec in Hrot
      as [[-> _] | (_ & v & ts & moved & _ & _ & _ & ->)]; by repeat split. }
  destruct res0 as [[]|x0]; [|simpl; by rewrite Hp0, Ht0, Hc0, Ho0, Hf0, Hs0].
  rewrite on_disk_eq.
  destruct (process_zip (company_facts_response r) CompanyFactsData (fs e0))
    as [res1 d1] eqn:Hz1.
  pose proof (process_zip_populated (company_facts_response r)
                CompanyFactsData (fs e0)) as Hpop1.
  rewrite Hz1 in Hpop1. simpl in Hpop1.
  apply process_zip_frame in Hz1 as (_ & _ & _ & _ & Ho1 & _ & Hoth1).
  destruct (Hoth1 SubmissionsData) as [_ Hsub1]; [done|]. simpl in Hsub1.
  simpl. destruct res1 as [[]|x1].
  2:{ simpl. repeat split; try congruence. intros Hne. rewrite Hpop1; congruence. }
  rewrite on_disk_eq. simpl.
  destruct (process_zip (submissions_response r) SubmissionsData d1)
    as [res2 d2] eqn:Hz2.
  pose proof (process_zip_populated (submissions_response r)
                SubmissionsData d1) as Hpop2.
  rewrite Hz2 in Hpop2. simpl in Hpop2.
  apply process_zip_frame in Hz2 as (_ & _ & _ & _ & Ho2 & _ & Hoth2).
  destruct (Hoth2 CompanyFactsData) as [_ Hfacts2]; [done|]. simpl in Hfacts2.
  simpl. repeat split; try congruence.
  - intros Hne. rewrite Hfacts2, Hpop1; congruence.
  - intros Hne. rewrite Hpop2; congruence.
Qed.

(** A [refresh] that returns has had two complete downloads. *)
Lemma refresh_return r e mid :
  refresh py_str r e = (Return tt, mid) →
  ∃ a1 a2,
    company_facts_response r = Body a1 true ∧
    submissions_response r = Body a2 true ∧
    company_facts_zip (fs mid) = Some a1 ∧
    submissions_zip (fs mid) = Some a2.
Proof.
  unfold refresh, bind.
  destruct (rotate_summary py_str e) as [[[]|x0] e0]; [|done].
  rewrite on_disk_eq.
  destruct (process_zip (company_facts_response r) CompanyFactsData (fs e0))
    as [[[]|x1] d1] eqn:Hz1; [|done].
  apply process_zip_return_inv in Hz1 as (a1 & Hr1 & Ha1 & _).
  rewrite on_disk_eq. simpl.
  destruct (process_zip (submissions_response r) SubmissionsData d1)
    as [[[]|x2] d2] eqn:Hz2; [|done].
  pose proof Hz2 as Hz2'.
  apply process_zip_return_inv in Hz2 as (a2 & Hr2 & Ha2 & _).
  apply process_zip_frame in Hz2' as (_ & _ & _ & _ & _ & _ & Hoth).
  destruct (Hoth CompanyFactsData) as [Hkeep _]; [done|].
  simpl in Ha1, Ha2, Hkeep. intros [= <-]. simpl.
  exists a1, a2. repeat split; try done. congruence.
Qed.

(** The last phase touches the three files it writes and nothing else. *)
Lemma persist_frame r e :
  path (persist index_size r e).2 = path e ∧
  ticker_cik_map (persist index_size r e).2 = ticker_cik_map e ∧
  company_cik_map (persist index_size r e).2 = company_cik_map e ∧
  company_facts (fs (persist index_size r e).2) = company_facts (fs e) ∧
  submissions (fs (persist index_size r e).2) = submissions (fs e) ∧
  summaries (fs (persist index_size r e).2) = summaries (fs e) ∧
  company_facts_zip (fs (persist index_size r e).2) = company_facts_zip (fs e) ∧
  submissions_zip (fs (persist index_size r e).2) = submissions_zip (fs e).
Proof.
  unfold persist, write_indices, write_summary, bind, with_fs. simpl.
  destruct (company_facts_zip (fs e)) eqn:H1; simpl;
    [|by rewrite ?H1].
  destruct (submissions_zip (fs e)) eqn:H2; simpl; by rewrite ?H1, ?H2.
Qed.

Lemma build_stages n r e :
  build py_str index_size n r e =
  match refresh py_str r e with
  | (Return _, e0) =>
      match build_index n r e0 with
      | (Return _, mid) => persist index_size r mid
      | (Raise x, mid) => (Raise x, mid)
      end
  | (Raise x, e0) => (Raise x, e0)
  end.
Proof.
  rewrite build_unfold. unfold prepare, bind.
  destruct (refresh py_str r e) as [[[]|x] e0]; [|done].
  by destruct (build_index n r e0) as [[[]|y] mid].
Qed.
End BuildExtras.

Section BuildProperties.
Variable py_str : json → string.
Variable index_size : index → Z.

(** X10. A build never removes a key from the in-memory maps, whether
    it completes or fails, and at whatever step it fails: every key held
    before the build, in either map, is still held after it (the scan may
    have bound it to another identifier). *)
Theorem build_never_forgets (n : Z) (r : run) (e e' : edgar)
    (res : result unit) :
  build py_str index_size n r e = (res, e') →
  (∀ k, is_Some (ticker_cik_map e !! k) → is_Some (ticker_cik_map e' !! k)) ∧
  (∀ k, is_Some (company_cik_map e !! k) → is_Some (company_cik_map e' !! k)).
Proof.
  intros Hb. rewrite build_stages in Hb.
  destruct (refresh_frame py_str r e) as (_ & Ht0 & Hc0 & _).
  destruct (refresh py_str r e) as [[[]|x] e0]; simpl in Ht0, Hc0.
  2:{ injection Hb as <- <-. rewrite Ht0, Hc0. done. }
  destruct (build_index_keeps_keys n r e0) as [Ht1 Hc1].
  rewrite Ht0 in Ht1. rewrite Hc0 in Hc1.
  destruct (build_index n r e0) as [[[]|y] mid]; simpl in Ht1, Hc1.
  2:{ by injection Hb as <- <-. }
  destruct (persist_frame index_size r mid) as (_ & Ht2 & Hc2 & _).
  rewrite Hb in Ht2, Hc2. simpl in Ht2, Hc2. rewrite Ht2, Hc2. done.
Qed.

(** X11. A [summary.json] that does not parse, or parses to something
    without a "build_timestamp", makes every build fail at once: nothing
    is downloaded, nothing on disk or in memory changes, so the build
    cannot recover by itself. *)
Theorem unreadable_summary_blocks_build (n : Z) (r : run) (e : edgar)
    (c : content) :
  summary_json (fs e) = Some c →
  c = Junk ∨ (∃ v, c = Doc v ∧ raises (getitem v "build_timestamp")) →
  ∃ x, build py_str index_size n r e = (Raise x, e).
Proof.
  intros Hc Hbad. rewrite build_stages.
  unfold refresh, bind, rotate_summary, lift. rewrite Hc.
  destruct Hbad as [-> | (v & -> & [x Hx])].
  - by exists JSONDecodeError.
  - exists x. cbn -[getitem]. by rewrite Hx.
Qed.

End BuildProperties.

Lemma build_never_forgets_witness :
  let e := Edgar "data" (Disk None None None None None [] [] [] 0)
             {[KStr "OLD" := "0000000001"]}
             {[KStr "Old Corp" := "0000000001"]} in
  let e' := (build (λ _, "") (λ _, 0) 2 (scenario "t" id) e).2 in
  is_Some (ticker_cik_map e' !! KStr "OLD") ∧
  is_Some (company_cik_map e' !! KStr "Old Corp").
Proof.
  intros e e'.
  assert (build (λ _, "") (λ _, 0) 2 (scenario "t" id) e = (Return tt, e'))
    as Hb by (subst e'; apply run_eq; compute_done).
  destruct (build_never_forgets (λ _, "") (λ _, 0) 2 (scenario "t" id) e e'
              (Return tt) Hb)
    as (Ht & Hc).
  split; [apply Ht | apply Hc]; by eexists.
Defined.

Lemma unreadable_summary_blocks_build_witness :
  let e := Edgar "data"
             (Disk (Some (Doc (JObj [("total_size", JInt 0)])))
                None None None None [] [] [] 0) ∅ ∅ in
  ∃ x, build (λ _, "") (λ _, 0) 2 (scenario "t" id) e = (Raise x, e).
Proof.
  intros e.
  apply (unreadable_summary_blocks_build (λ _, "") (λ _, 0) 2
           (scenario "t" id) e
           (Doc (JObj [("total_size", JInt 0)]))); [reflexivity|].
  right. eexists. split; [reflexivity|]. by exists KeyError.
Defined.


Lemma app_inj_l (a b b' : string) : a +:+ b = a +:+ b' → b = b'.
Proof.
  induction a as [|ch a IH]; [done|].
  rewrite !app_String. intros [= H]. by apply IH.
Qed.

Lemma join_inj base name name' : join base name = join base name' → name = name'.
Proof.
  unfold join. intros H%app_inj_l. by apply (app_inj_l "/") in H.
Qed.

(** Opening a listed name finds the entry of that name. *)
Lemma open_in_join base (d : dir) name :
  open_in base d (join base name)
  = match dir_lookup name d with
    | Some (File c) => Some c
    | _ => None
    end.
Proof.
  induction d as [|[n x] d IH]; simpl; [done|].
  destruct (decide (n = name)) as [->|Hne].
  - by rewrite decide_True.
  - rewrite decide_False; [exact IH|]. intros H%join_inj. done.
Qed.

Lemma dir_lookup_listed name (d : dir) x :
  dir_lookup name d = Some x → name ∈ listdir d.
Proof.
  induction d as [|[n y] d IH]; simpl; [done|].
  destruct (decide (n = name)) as [->|Hne]; [intros _; by left|].
  intros H. right. by apply IH.
Qed.

(** In a list of openable files, every key of a well-formed record is in
    the maps the worker returns. *)
Lemma gather_index_has_keys open_file files p v cik name tickers t c :
  gather_index open_file files = Return (t, c) →
  p ∈ files → open_file p = Some (Doc v) →
  well_formed v cik name tickers →
  is_Some (c !! KStr name) ∧ (∀ tk, tk ∈ tickers → is_Some (t !! KStr tk)).
Proof.
  intros Hg Hp Hv Hwf.
  pose proof (gather_index_openable _ _ _ Hg) as Hopen.
  rewrite gather_index_returns in Hg by done. injection Hg as <- <-.
  apply list_elem_of_split in Hp as (before & after & ->).
  rewrite scan_app by (intros q Hq; apply Hopen, elem_of_app; by left).
  rewrite scan_cons, Hv, (index_submission_well_formed _ _ _ _ _ Hwf).
  set (w2 := Worker _ _). split.
  - apply (scan_invariant open_file
             (λ w, is_Some (company_map w !! KStr name))).
    + intros q f w _ _. apply index_submission_keeps_keys.
    + simpl. rewrite lookup_insert_eq. by eexists.
  - intros tk Htk.
    apply (scan_invariant open_file
             (λ w, is_Some (ticker_map w !! KStr tk))).
    + intros q f w _ _. apply index_submission_keeps_keys.
    + simpl. unfold update. apply lookup_union_is_Some. left.
      rewrite lookup_foldl_insert by done. by eexists.
Qed.

Section EndToEnd.
Variable py_str : json → string.
Variable index_size : index → Z.

(** X13. Extracted data is never refreshed: a folder that already holds
    an entry comes out of a build, completed or failed, exactly as it
    went in, although the archive beside it is downloaded again. *)
Theorem build_keeps_populated_folders (n : Z) (r : run) (e e' : edgar)
    (res : result unit) :
  build py_str index_size n r e = (res, e') →
  (company_facts (fs e) ≠ [] → company_facts (fs e') = company_facts (fs e)) ∧
  (submissions (fs e) ≠ [] → submissions (fs e') = submissions (fs e)) ∧
  (res = Return tt →
   ∃ a1 a2,
     company_facts_response r = Body a1 true ∧
     submissions_response r = Body a2 true ∧
     company_facts_zip (fs e') = Some a1 ∧ submissions_zip (fs e') = Some a2).
Proof.
  rewrite build_stages.
  destruct (refresh_frame py_str r e) as (_ & _ & _ & _ & Hf0 & Hs0).
  destruct (refresh py_str r e) as [[[]|x] e0] eqn:Href; simpl in Hf0, Hs0.
  2:{ by intros [= <- <-]. }
  apply refresh_return in Href as (a1 & a2 & Hr1 & Hr2 & Hz1 & Hz2).
  destruct (build_index_frame n r e0) as [Hfs _].
  destruct (build_index n r e0) as [[[]|y] mid]; simpl in Hfs.
  2:{ intros [= <- <-]. rewrite Hfs. by repeat split. }
  destruct (persist_frame index_size r mid)
    as (_ & _ & _ & Hf2 & Hs2 & _ & Hz1' & Hz2').
  intros Hp. rewrite Hp in Hf2, Hs2, Hz1', Hz2'. simpl in *.
  rewrite Hf2, Hs2, Hz1', Hz2', Hfs. repeat split; try done.
  intros _. by exists a1, a2.
Qed.

(** X14. Archived summaries are kept: a file of summaries/ comes out of
    a build, completed or failed, with the same content, unless its name
    is the one the current summary is archived under, in which case it
    now holds that summary. *)
Theorem build_keeps_archived_summaries (n : Z) (r : run) (e e' : edgar)
    (res : result unit) (name : string) (x : node) :
  build py_str index_size n r e = (res, e') →
  dir_lookup name (summaries (fs e)) = Some x →
  dir_lookup name (summaries (fs e')) = Some x ∨
  (∃ v ts,
     summary_json (fs e) = Some (Doc v) ∧
     getitem v "build_timestamp" = Return ts ∧
     name = archived_name py_str ts ∧
     dir_lookup name (summaries (fs e')) = Some (File (Doc v))).
Proof.
  intros Hb Hx.
  assert (∃ mid res', prepare py_str n r e = (res', mid) ∧
                      summaries (fs e') = summaries (fs mid))
    as (mid & res' & Hprep & Hsame).
  { rewrite build_unfold in Hb.
    destruct (prepare py_str n r e) as [[[]|y] mid] eqn:Hprep.
    - destruct (persist_frame index_size r mid) as (_ & _ & _ & _ & _ & Hm & _).
      rewrite Hb in Hm. eauto.
    - injection Hb as <- <-. eauto. }
  apply prepare_spec in Hprep as (_ & _ & _ & _ & _ & Hrot).
  rewrite Hsame.
  destruct Hrot as [(_ & -> & _) | (v & ts & Hv & Hts & _ & Hmv)]; [by left|].
  unfold rename_into in Hmv.
  destruct (contains "/" _); [done|].
  destruct (decide (name = archived_name py_str ts)) as [->|Hne].
  - right. exists v, ts. repeat split; try done.
    destruct (dir_lookup _ (summaries (fs e))) as [[|]|]; try done;
      injection Hmv as <-; apply dir_lookup_write_eq.
  - left.
    destruct (dir_lookup (archived_name py_str ts) (summaries (fs e)))
      as [[|]|]; try done;
      injection Hmv as <-; by rewrite dir_lookup_write_ne.
Qed.

(** X15. After a build that completes, every non-empty ticker and every
    non-empty display name of every well-formed record in a ".json" file
    of the submissions folder resolves through [lookup_cik], in whatever
    order the workers finished. *)
Theorem built_index_resolves (n : Z) (r : run) (e e' : edgar)
    (file_name : string) (v : json) (cik name : string)
    (tickers : list string) :
  fair r →
  build py_str index_size n r e = (Return tt, e') →
  dir_lookup file_name (submissions (fs e')) = Some (File (Doc v)) →
  contains ".json" file_name = true →
  well_formed v cik name tickers →
  (name ≠ "" → ∃ id, lookup_cik e' JNull (JStr name) = Return (Some id)) ∧
  (∀ tk, tk ∈ tickers → tk ≠ "" →
     ∃ id, lookup_cik e' (JStr tk) JNull = Return (Some id)).
Proof.
  intros Hfair Hb Hfile Hjson Hwf. rewrite build_stages in Hb.
  destruct (refresh py_str r e) as [[[]|x] e0]; [|done].
  destruct (build_index n r e0) as [[[]|y] mid] eqn:Hscan; [|done].
  destruct (persist_frame index_size r mid) as (_ & Ht & Hc & _ & Hs & _).
  rewrite Hb in Ht, Hc, Hs. simpl in Ht, Hc, Hs.
  apply build_index_return in Hscan
    as (parts & results & finished & Hparts & Hfut & Hperm & ->); [|done].
  simpl in Ht, Hc, Hs. rewrite Hs in Hfile.
  set (base := join (path e0) "submissions") in *.
  assert (join base file_name ∈ file_names e0) as Hin.
  { unfold file_names. apply list_elem_of_fmap. exists file_name.
    split; [done|]. apply list_elem_of_In, filter_In. split; [|done].
    apply list_elem_of_In. by eapply dir_lookup_listed. }
  rewrite <- (chunks_concat _ _ _ Hparts) in Hin.
  apply list_elem_of_In, in_concat in Hin as (part & Hpart & Hin).
  apply list_elem_of_In in Hpart. apply list_elem_of_In in Hin.
  assert (Return (A:=index * index) <$> results
          = gather_index (open_in base (submissions (fs e0))) <$> parts)
    as Hfut' by done.
  assert (∃ tc, tc ∈ results ∧
                gather_index (open_in base (submissions (fs e0))) part
                = Return tc) as ([t c] & Htc & Hg).
  { assert (gather_index (open_in base (submissions (fs e0))) part
            ∈ Return (A:=index * index) <$> results) as Hmem.
    { rewrite Hfut'. apply list_elem_of_fmap. by exists part. }
    apply list_elem_of_fmap in Hmem as (tc & Heq & Htc). by exists tc. }
  destruct (gather_index_has_keys _ _ _ v cik name tickers _ _ Hg Hin)
    as [Hname Htickers]; [by rewrite open_in_join, Hfile | done |].
  rewrite Hperm in Htc.
  assert (∀ k, is_Some (t !! k) → is_Some (ticker_cik_map e' !! k)) as Hkt.
  { intros k Hk. rewrite Ht. apply elem_of_dom.
    rewrite dom_foldl_update. apply elem_of_union_r, elem_of_union_list.
    exists (dom t). split; [|by apply elem_of_dom].
    apply list_elem_of_fmap. by exists (t, c). }
  assert (∀ k, is_Some (c !! k) → is_Some (company_cik_map e' !! k)) as Hkc.
  { intros k Hk. rewrite Hc. apply elem_of_dom.
    rewrite dom_foldl_update. apply elem_of_union_r, elem_of_union_list.
    exists (dom c). split; [|by apply elem_of_dom].
    apply list_elem_of_fmap. by exists (t, c). }
  split.
  - intros Hne. destruct (Hkc _ Hname) as [id Hid]. exists id.
    unfold lookup_cik, lookup_in. simpl.
    destruct (String.eqb_spec name ""); [done|]. simpl. by rewrite Hid.
  - intros tk Htk Hne. destruct (Hkt _ (Htickers tk Htk)) as [id Hid].
    exists id. unfold lookup_cik, lookup_in. simpl.
    destruct (String.eqb_spec tk ""); [done|]. simpl. by rewrite Hid.
Qed.
End EndToEnd.

Lemma build_keeps_populated_folders_witness :
  let d := Disk None None None None None
             [("CIK0000000001.json", File Junk)]
             [("CIK0000000001.json", File (Doc apple))] [] 0 in
  let e := Edgar "data" d ∅ ∅ in
  let e' := (build (λ _, "") (λ _, 0) 1 (scenario "t" id) e).2 in
  company_facts (fs e') = [("CIK0000000001.json", File Junk)] ∧
  submissions (fs e') = [("CIK0000000001.json", File (Doc apple))].
Proof.
  intros d e e'.
  destruct (build_keeps_populated_folders (λ _, "") (λ _, 0) 1
              (scenario "t" id) e e'
              (build (λ _, "") (λ _, 0) 1 (scenario "t" id) e).1)
    as (Hf & Hs & _).
  - subst e'. apply surjective_pairing.
  - split; [by apply Hf | by apply Hs].
Defined.

Lemma build_keeps_archived_summaries_witness :
  let old := File (Doc (JObj [("build_timestamp", JStr "t0")])) in
  let d := Disk (Some (Doc (JObj [("build_timestamp", JStr "t1")])))
             None None None None [] [] [("summary_t0.json", old)] 0 in
  let e := Edgar "data" d ∅ ∅ in
  let e' := (build (λ _, "") (λ _, 0) 2 (scenario "t2" id) e).2 in
  dir_lookup "summary_t0.json" (summaries (fs e')) = Some old.
Proof.
  intros old d e e'.
  destruct (build_keeps_archived_summaries (λ _, "") (λ _, 0) 2
              (scenario "t2" id) e e'
              (build (λ _, "") (λ _, 0) 2 (scenario "t2" id) e).1
              "summary_t0.json" old)
    as [Hkept | (v & ts & Hv & Hts & Hname & _)].
  - subst e'. apply surjective_pairing.
  - reflexivity.
  - exact Hkept.
  - injection Hv as <-. injection Hts as <-. discriminate.
Defined.

Lemma built_index_resolves_witness :
  let e' := (build (λ _, "") (λ _, 0) 2 (scenario "t" reverse) fresh).2 in
  (∃ id, lookup_cik e' JNull (JStr "Amazon.com Inc.") = Return (Some id)) ∧
  (∃ id, lookup_cik e' (JStr "AMZN.B") JNull = Return (Some id)).
Proof.
  intros e'.
  assert (build (λ _, "") (λ _, 0) 2 (scenario "t" reverse) fresh
          = (Return tt, e'))
    as Hb by (subst e'; apply run_eq; compute_done).
  destruct (built_index_resolves (λ _, "") (λ _, 0) 2 (scenario "t" reverse)
              fresh e' "CIK0001018724.json" amazon "1018724"
              "Amazon.com Inc." ["AMZN"; "AMZN.B"])
    as [Hname Htickers].
  - intros futures. apply reverse_Permutation.
  - exact Hb.
  - subst e'. compute_done.
  - reflexivity.
  - by repeat split.
  - split; [by apply Hname|]. apply Htickers; [|done]. right. left.
Defined.

(** * Properties of the accessors *)

(** X16. [lookup_cik] tries the ticker first: a non-empty ticker that is
    in the ticker map decides the result and the company name is not
    even hashed; otherwise a non-empty name is looked up in the
    company-name map. An empty string is never looked up, so an entry
    stored under the empty key cannot be reached. *)
Theorem lookup_cik_order (e : edgar) (tk nm : string) (other : json) :
  (tk ≠ "" → is_Some (ticker_cik_map e !! KStr tk) →
   lookup_cik e (JStr tk) other = Return (ticker_cik_map e !! KStr tk)) ∧
  (tk = "" ∨ ticker_cik_map e !! KStr tk = None →
   nm ≠ "" →
   lookup_cik e (JStr tk) (JStr nm) = Return (company_cik_map e !! KStr nm)) ∧
  lookup_cik e (JStr "") (JStr "") = Return None ∧
  lookup_cik e JNull JNull = Return None.
Proof.
  unfold lookup_cik, lookup_in. simpl. repeat split.
  - intros Htk [id Hid]. destruct (String.eqb_spec tk ""); [done|]. simpl.
    by rewrite Hid.
  - intros Hno Hnm. destruct (String.eqb_spec nm ""); [done|].
    destruct (String.eqb_spec tk "") as [->|Htk]; simpl; [done|].
    destruct Hno as [? | ->]; done.
Qed.

(** A separator in a concatenation is in one of its parts. *)
Lemma contains_slash_app (a b : string) :
  contains "/" (a +:+ b) = contains "/" a || contains "/" b.
Proof.
  induction a as [|c a IH]; [by rewrite app_empty|].
  rewrite app_String. cbn [contains String.prefix]. rewrite IH.
  destruct (ascii_dec "/" c); [|done].
  by destruct a, (_ +:+ b).
Qed.

Section AccessProperties.
Variable py_str : json → string.
Variable open_nested : disk → string → option content.

(** X17. Without an explicit cik, [get_data] behaves as with the cik
    that [lookup_cik] finds: it raises [ValueError] when nothing is
    found or the identifier found is empty, and otherwise gives what a
    call with that identifier as explicit cik gives. *)
Theorem get_data_by_lookup (e : edgar) (cik ticker company_name : json)
    (found : option string) :
  truthy cik = false →
  lookup_cik e ticker company_name = Return found →
  get_data py_str open_nested e cik ticker company_name
  = match found with
    | Some id =>
        if decide (id = "") then Raise ValueError
        else get_data py_str open_nested e (JStr id) JNull JNull
    | None => Raise ValueError
    end.
Proof.
  intros Hcik Hfound. unfold get_data. rewrite Hcik, Hfound. simpl.
  destruct found as [id|]; simpl; [|done].
  destruct (decide (id = "")) as [->|Hne]; [done|].
  assert (String.eqb id "" = false) as Heqb
    by by destruct (String.eqb_spec id "").
  rewrite Heqb. simpl. by rewrite Heqb.
Qed.

(** X18. An explicit cik is used as it is, without padding: in a
    company-facts folder whose file names all have the 18 characters of
    "CIK", ten digits and ".json", a non-empty cik without a path
    separator and of another length than 10 finds no file, and [get_data]
    raises [ValueError], whatever ticker and name are given with it. (A
    cik with a separator names a path below or beside the folder, which
    the operating system resolves.) *)
Theorem explicit_cik_is_not_padded (e : edgar) (s : string)
    (ticker company_name : json) :
  s ≠ "" → String.length s ≠ 10%nat → contains "/" s = false →
  (∀ name, name ∈ listdir (company_facts (fs e)) →
           String.length name = 18%nat) →
  get_data py_str open_nested e (JStr s) ticker company_name
  = Raise ValueError.
Proof.
  intros Hne Hlen Hflat Hnames. unfold get_data. simpl.
  destruct (String.eqb_spec s ""); [done|]. simpl.
  destruct (String.eqb_spec s ""); [done|]. simpl.
  unfold open_facts. rewrite !contains_slash_app, Hflat. simpl.
  destruct (dir_lookup ("CIK" +:+ s +:+ ".json") (company_facts (fs e)))
    as [x|] eqn:Hx; [|done].
  apply dir_lookup_listed, Hnames in Hx.
  rewrite !length_app in Hx. simpl in Hx. lia.
Qed.
End AccessProperties.

Lemma get_data_by_lookup_witness :
  let d := Disk None None None None None
             [("CIK0000320193.json", File (Doc apple))] [] [] 0 in
  let e := Edgar "data" d {[KStr "AAPL" := "0000320193"]} ∅ in
  get_data (λ _, "None") (λ _ _, None) e JNull (JStr "AAPL") JNull
  = get_data (λ _, "None") (λ _ _, None) e (JStr "0000320193") JNull JNull.
Proof.
  intros d e.
  apply (get_data_by_lookup (λ _, "None") (λ _ _, None) e JNull (JStr "AAPL")
           JNull (Some "0000320193")); reflexivity.
Defined.

Lemma explicit_cik_is_not_padded_witness :
  let d := Disk None None None None None
             [("CIK0000320193.json", File (Doc apple))] [] [] 0 in
  let e := Edgar "data" d {[KStr "AAPL" := "0000320193"]} ∅ in
  get_data (λ _, "None") (λ _ _, None) e (JStr "320193") (JStr "AAPL") JNull
  = Raise ValueError.
Proof.
  intros d e.
  apply (explicit_cik_is_not_padded (λ _, "None") (λ _ _, None) e "320193").
  - discriminate.
  - simpl. lia.
  - reflexivity.
  - intros name Hname. apply list_elem_of_singleton in Hname as ->.
    reflexivity.
Defined.

(** ** [Field] *)

Lemma drain_all items obs :
  map observation items = map Return obs → drain items = (obs, None).
Proof.
  revert obs. induction items as [|item items IH]; intros [|o obs]; try done.
  simpl. intros [= -> Hrest]. by rewrite (IH _ Hrest).
Qed.

Lemma drain_until good obs bad x rest :
  map observation good = map Return obs → observation bad = Raise x →
  drain (good ++ bad :: rest) = (obs, Some x).
Proof.
  revert obs. induction good as [|item good IH]; intros [|o obs]; try done.
  - simpl. by intros _ ->.
  - simpl. intros [= -> Hrest] Hbad. by rewrite (IH _ Hrest Hbad).
Qed.

(** X19. Iterating a [Field] whose data has a list under
    ["units"]["USD"] yields one (fy, fp, val) tuple per observation, in
    order, as long as the observations have the three members; at the
    first one that lacks a member the iteration ends with that
    exception, after the tuples before it have been yielded. *)
Theorem iter_yields_until_failure (f : Field) (units : json)
    (items : list json) :
  getitem (data f) "units" = Return units →
  getitem units "USD" = Return (JArr items) →
  (∀ obs, map observation items = map Return obs →
          iter f = Return (obs, None)) ∧
  (∀ good obs bad x rest,
     items = (good ++ bad :: rest)%list →
     map observation good = map Return obs →
     observation bad = Raise x →
     iter f = Return (obs, Some x)).
Proof.
  intros Hunits Husd. unfold iter. rewrite Hunits. simpl. rewrite Husd. simpl.
  split.
  - intros obs Hobs. by rewrite (drain_all _ _ Hobs).
  - intros good obs bad x rest -> Hgood Hbad.
    by rewrite (drain_until _ _ _ _ _ Hgood Hbad).
Qed.

Lemma iter_yields_until_failure_witness :
  let q1 := JObj [("fy", JInt 2023); ("fp", JStr "Q1"); ("val", JInt 10)] in
  let q2 := JObj [("fy", JInt 2023); ("val", JInt 20)] in
  let f := mkField "us-gaap" "Assets"
             (JObj [("label", JStr "Assets");
                    ("units", JObj [("USD", JArr [q1; q2; q1])])]) in
  iter f = Return ([(JInt 2023, JStr "Q1", JInt 10)], Some KeyError).
Proof.
  intros q1 q2 f.
  destruct (iter_yields_until_failure f (JObj [("USD", JArr [q1; q2; q1])])
              [q1; q2; q1] eq_refl eq_refl) as [_ Hstop].
  apply (Hstop [q1] [(JInt 2023, JStr "Q1", JInt 10)] q2 KeyError [q1]);
    reflexivity.
Defined.

(** * Malformed records in the scan phase (lines 46-53, 135-151) *)

Lemma map_eq_elem {A B C} (f : A → C) (g : B → C) (l : list A) (l' : list B)
    x :
  map f l = map g l' → x ∈ l → ∃ y, y ∈ l' ∧ f x = g y.
Proof.
  intros Heq Hx.
  assert (f x ∈ map g l') as Hin
    by (rewrite <- Heq; apply list_elem_of_fmap; eauto).
  apply list_elem_of_fmap in Hin as (y & Hy & Hin). eauto.
Qed.

Lemma is_Some_foldl_update {A} (f : A → index) (m : index) (l : list A) k :
  is_Some (m !! k) ∨ (∃ x, x ∈ l ∧ is_Some (f x !! k)) →
  is_Some (foldl (λ m x, update m (f x)) m l !! k).
Proof.
  revert m. induction l as [|x l IH]; intros m Hk.
  - destruct Hk as [? | (x & Hx & _)]; [done|]. by apply elem_of_nil in Hx.
  - simpl. apply IH. unfold update.
    destruct Hk as [Hm | (y & [-> | Hy]%elem_of_cons & Hv)].
    + left. apply lookup_union_is_Some. by right.
    + left. apply lookup_union_is_Some. by left.
    + right. eauto.
Qed.

Section ScanBinding.
(** One of the two maps of a worker, a key of it and an identifier, and a
    file list each of whose files leaves the key as it was or binds it
    to that identifier. *)
Variable open_file : string → option content.
Variable sel : worker → index.
Variable k : pykey.
Variable id : string.
Variable files : list string.
Hypothesis step : ∀ q c w, q ∈ files → open_file q = Some c →
  sel (index_submission c w).2 !! k = sel w !! k ∨
  sel (index_submission c w).2 !! k = Some id.

Lemma scan_binds_at_most part w :
  (∀ q, q ∈ part → q ∈ files) →
  sel w !! k = None ∨ sel w !! k = Some id →
  sel (scan open_file part w).2 !! k = None ∨
  sel (scan open_file part w).2 !! k = Some id.
Proof.
  intros Hsub. apply (scan_invariant open_file
    (λ w, sel w !! k = None ∨ sel w !! k = Some id)).
  intros q c w' Hq Hc Hw.
  destruct (step q c w' (Hsub q Hq) Hc) as [-> | ->]; [done | by right].
Qed.

Lemma scan_binds_still part w :
  (∀ q, q ∈ part → q ∈ files) →
  sel w !! k = Some id → sel (scan open_file part w).2 !! k = Some id.
Proof.
  intros Hsub. apply (scan_invariant open_file (λ w, sel w !! k = Some id)).
  intros q c w' Hq Hc Hw.
  by destruct (step q c w' (Hsub q Hq) Hc) as [-> | ->].
Qed.

Lemma scan_binds part p c w :
  (∀ q, q ∈ part → q ∈ files) →
  (∀ q, q ∈ part → is_Some (open_file q)) →
  p ∈ part → open_file p = Some c →
  (∀ w, sel (index_submission c w).2 !! k = Some id) →
  sel (scan open_file part w).2 !! k = Some id.
Proof.
  intros Hsub Hopen Hp Hc Hwrites.
  apply list_elem_of_split in Hp as (before & after & ->).
  rewrite scan_app by (intros q Hq; apply Hopen, elem_of_app; by left).
  rewrite scan_cons, Hc. apply scan_binds_still; [|apply Hwrites].
  intros q Hq. apply Hsub, elem_of_app. right. by right.
Qed.
End ScanBinding.

(** The scan phase returns when the worker count is between 1 and the
    number of files and every file opens. *)
Lemma build_index_returns n r e :
  fair r →
  1 ≤ n ≤ Z.of_nat (length (file_names e)) →
  (∀ p, p ∈ file_names e →
        is_Some (open_in (join (path e) "submissions") (submissions (fs e))
                   p)) →
  ∃ parts results finished,
    chunks (file_names e) n = Return parts ∧
    map (gather_index (open_in (join (path e) "submissions")
                         (submissions (fs e)))) parts
    = map Return results ∧
    results ≡ₚ finished ∧
    build_index n r e
    = (Return tt,
       Edgar (path e) (fs e)
         (foldl (λ m tc, update m tc.1) (ticker_cik_map e) finished)
         (foldl (λ m tc, update m tc.2) (company_cik_map e) finished)).
Proof.
  intros Hfair [Hn Hlen] Hopen.
  pose proof (chunks_eq (file_names e) n Hn Hlen) as Hparts.
  set (parts := map _ _) in Hparts.
  pose proof (chunks_concat _ _ _ Hparts) as Hconcat.
  pose proof (gather_index_returns _ _ Hopen) as Hg.
  rewrite <- Hconcat in Hg.
  destruct (gather_index_parts _ _ _ _ Hg) as [results Hres].
  pose proof (Hfair (map Return results)) as Hperm.
  apply Permutation_map_inv in Hperm as (finished & Hdone & Hperm).
  exists parts, results, finished. repeat split; try done.
  unfold build_index, bind, lift. rewrite Hparts, Hres, Hdone.
  apply merge_returns.
Qed.

(** C2. The scan phase over a submissions folder whose ".json" entries
    all open, whatever they hold - records, text that does not parse,
    records that lack a member - and in whatever order the workers
    finish. With a worker count between 1 and the number of files it
    returns, and every display name and every ticker of every
    well-formed record is a key of the resulting map, bound to that
    record's normalized identifier when no other file of the list writes
    the key. With more workers than files it raises [ValueError] (the
    zero step of the [range] of line 49) and leaves the maps as they
    were, malformed file or not. *)
Theorem malformed_record_build (n : Z) (r : run) (e : edgar) :
  let open_file :=
    open_in (join (path e) "submissions") (submissions (fs e)) in
  fair r →
  (∀ p, p ∈ file_names e → is_Some (open_file p)) →
  (1 ≤ n ≤ Z.of_nat (length (file_names e)) →
   ∃ e',
     build_index n r e = (Return tt, e') ∧
     ∀ p v cik name tickers,
       p ∈ file_names e → open_file p = Some (Doc v) →
       well_formed v cik name tickers →
       is_Some (company_cik_map e' !! KStr name) ∧
       (∀ tk, tk ∈ tickers → is_Some (ticker_cik_map e' !! KStr tk)) ∧
       ((∀ q f, q ∈ file_names e → q ≠ p → open_file q = Some f →
                keeps_company f (KStr name)) →
        company_cik_map e' !! KStr name = Some (pad_cik cik)) ∧
       (∀ tk, tk ∈ tickers →
          (∀ q f, q ∈ file_names e → q ≠ p → open_file q = Some f →
                  keeps_ticker f (KStr tk)) →
          ticker_cik_map e' !! KStr tk = Some (pad_cik cik))) ∧
  (Z.of_nat (length (file_names e)) < n →
   build_index n r e = (Raise ValueError, e)).
Proof.
  intros open_file Hfair Hopen. split.
  - intros Hn.
    destruct (build_index_returns n r e Hfair Hn Hopen)
      as (parts & results & finished & Hparts & Hres & Hperm & Hrun).
    eexists. split; [exact Hrun|]. simpl.
    apply chunks_concat in Hparts.
    assert (∀ part q, part ∈ parts → q ∈ part → q ∈ file_names e) as Hsub.
    { intros part q Hpart Hq. rewrite <- Hparts.
      apply list_elem_of_In, in_concat. exists part.
      split; by apply list_elem_of_In. }
    assert (∀ tc, tc ∈ finished →
              ∃ part, part ∈ parts ∧
                tc = (ticker_map (scan open_file part (Worker ∅ ∅)).2,
                      company_map (scan open_file part (Worker ∅ ∅)).2))
      as Hscan.
    { intros tc Htc. rewrite <- Hperm in Htc.
      destruct (map_eq_elem _ _ _ _ tc (eq_sym Hres) Htc)
        as (part & Hpart & Hg).
      exists part. split; [done|].
      rewrite gather_index_returns in Hg
        by (intros q Hq; apply Hopen; by apply (Hsub part)).
      by injection Hg as ->. }
    intros p v cik name tickers Hp Hv Hwf.
    rewrite <- Hparts in Hp. apply list_elem_of_In, in_concat in Hp
      as (part & Hpart%list_elem_of_In & Hp%list_elem_of_In).
    destruct (map_eq_elem _ _ _ _ part Hres Hpart) as ([t c] & Htc & Hg).
    rewrite Hperm in Htc.
    destruct (gather_index_has_keys _ _ _ _ _ _ _ _ _ Hg Hp Hv Hwf)
      as [Hname Htickers].
    rewrite gather_index_returns in Hg
      by (intros q Hq; apply Hopen; by apply (Hsub part)).
    injection Hg as Ht Hc.
    split; [|split; [|split]].
    + apply (is_Some_foldl_update snd). right. by exists (t, c).
    + intros tk Htk. apply (is_Some_foldl_update fst). right.
      exists (t, c). split; [done|]. by apply Htickers.
    + intros Hkeep.
      assert (∀ q f w, q ∈ file_names e → open_file q = Some f →
                company_map (index_submission f w).2 !! KStr name
                = company_map w !! KStr name ∨
                company_map (index_submission f w).2 !! KStr name
                = Some (pad_cik cik)) as Hstep.
      { intros q f w Hq Hf. destruct (decide (q = p)) as [->|Hne].
        - right. rewrite Hv in Hf. injection Hf as <-.
          rewrite (index_submission_well_formed _ _ _ _ _ Hwf).
          apply lookup_insert_eq.
        - left. by apply (Hkeep q f). }
      apply (lookup_foldl_update_Some snd).
      * intros tc Hin. destruct (Hscan tc Hin) as (part' & Hpart' & ->).
        apply (scan_binds_at_most open_file company_map _ _ _ Hstep);
          [intros q Hq; by apply (Hsub part') | by left].
      * right. exists (t, c). split; [done|]. simpl. rewrite <- Hc.
        apply (scan_binds open_file company_map _ _ _ Hstep part p (Doc v));
          try done.
        -- intros q Hq. by apply (Hsub part).
        -- intros q Hq. apply Hopen. by apply (Hsub part).
        -- intros w. rewrite (index_submission_well_formed _ _ _ _ _ Hwf).
           apply lookup_insert_eq.
    + intros tk Htk Hkeep.
      assert (∀ w, ticker_map (index_submission (Doc v) w).2 !! KStr tk
                   = Some (pad_cik cik)) as Hwrites.
      { intros w. rewrite (index_submission_well_formed _ _ _ _ _ Hwf).
        simpl. unfold update. apply lookup_union_Some_l.
        by apply lookup_foldl_insert. }
      assert (∀ q f w, q ∈ file_names e → open_file q = Some f →
                ticker_map (index_submission f w).2 !! KStr tk
                = ticker_map w !! KStr tk ∨
                ticker_map (index_submission f w).2 !! KStr tk
                = Some (pad_cik cik)) as Hstep.
      { intros q f w Hq Hf. destruct (decide (q = p)) as [->|Hne].
        - right. rewrite Hv in Hf. injection Hf as <-. apply Hwrites.
        - left. by apply (Hkeep q f). }
      apply (lookup_foldl_update_Some fst).
      * intros tc Hin. destruct (Hscan tc Hin) as (part' & Hpart' & ->).
        apply (scan_binds_at_most open_file ticker_map _ _ _ Hstep);
          [intros q Hq; by apply (Hsub part') | by left].
      * right. exists (t, c). split; [done|]. simpl. rewrite <- Ht.
        apply (scan_binds open_file ticker_map _ _ _ Hstep part p (Doc v));
          try done.
        -- intros q Hq. by apply (Hsub part).
        -- intros q Hq. apply Hopen. by apply (Hsub part).
  - intros Hshort. unfold build_index, bind, lift, chunks.
    rewrite Z.div_small by lia.
    repeat case_decide; try done; lia.
Qed.

Lemma malformed_record_build_witness :
  let d := Disk None None None None None []
             [("CIK0000320193.json", File (Doc apple));
              ("CIK0000000003.json", File Junk)] [] 0 in
  let e := Edgar "data" d ∅ ∅ in
  build_index 8 (scenario "t" id) e = (Raise ValueError, e) ∧
  ∃ e',
    build_index 2 (scenario "t" reverse) e = (Return tt, e') ∧
    company_cik_map e' !! KStr "Apple Inc." = Some "0000320193" ∧
    ticker_cik_map e' !! KStr "AAPL" = Some "0000320193".
Proof.
  intros d e.
  assert (∀ p, p ∈ file_names e →
               is_Some (open_in (join (path e) "submissions")
                          (submissions (fs e)) p)) as Hopen.
  { intros p Hp.
    repeat (apply elem_of_cons in Hp as [-> | Hp]; [by eexists|]).
    by apply elem_of_nil in Hp. }
  split.
  - apply (malformed_record_build 8 (scenario "t" id) e);
      [by intros futures | exact Hopen | simpl; lia].
  - destruct (malformed_record_build 2 (scenario "t" reverse) e) as [Hok _];
      [intros futures; apply reverse_Permutation | exact Hopen |].
    destruct Hok as (e' & Hrun & Hrecords); [simpl; lia|].
    exists e'. split; [exact Hrun|].
    destruct (Hrecords "data/submissions/CIK0000320193.json" apple
                "320193" "Apple Inc." ["AAPL"])
      as (_ & _ & Hc & Ht).
    + by left.
    + reflexivity.
    + by repeat split.
    + split.
      * apply Hc. intros q f Hq Hne Hf.
        repeat (apply elem_of_cons in Hq as [-> | Hq]; [done|]).
        apply elem_of_cons in Hq as [-> | Hq];
          [|by apply elem_of_nil in Hq].
        injection Hf as <-. apply keeps_company_junk.
      * apply (Ht "AAPL"); [by left|]. intros q f Hq Hne Hf.
        repeat (apply elem_of_cons in Hq as [-> | Hq]; [done|]).
        apply elem_of_cons in Hq as [-> | Hq];
          [|by apply elem_of_nil in Hq].
        injection Hf as <-. apply keeps_ticker_junk.
Defined.
